(** * QR payload security checker: a shallow embedding of
    [qr_code/qr-security-checker.py] and the properties of its
    URL risk-analysis pipeline. *)

From Stdlib Require Import String Ascii.
From Stdlib Require Import List NArith ZArith Bool Lia.
From Stdlib Require Import DecimalString.
Import ListNotations.

(** ** Python strings

    A Python 3 [str] is a sequence of Unicode code points.  The confusable
    characters of the checker are Cyrillic, so bytes would not do. *)

Definition char := N.
Definition str := list char.

(** An ASCII literal of the source as a [str]. *)
Definition lit (s : string) : str :=
  map N_of_ascii (list_ascii_of_string s).

Definition str_eq_dec : forall a b : str, {a = b} + {a <> b} :=
  list_eq_dec N.eq_dec.

Definition str_eqb (a b : str) : bool :=
  if str_eq_dec a b then true else false.

(** Truth value of a string: [if s:]. *)
Definition truthy (s : str) : bool :=
  match s with [] => false | _ :: _ => true end.

(** [s.startswith(p)] *)
Fixpoint startswith (s p : str) {struct p} : bool :=
  match p, s with
  | [], _ => true
  | _ :: _, [] => false
  | x :: p', y :: s' => N.eqb x y && startswith s' p'
  end.

(** [sub in s] *)
Fixpoint str_in (sub s : str) : bool :=
  startswith s sub ||
  match s with
  | [] => false
  | _ :: s' => str_in sub s'
  end.

(** [a < b] on strings: lexicographic on code points. *)
Fixpoint str_ltb (a b : str) : bool :=
  match a, b with
  | _, [] => false
  | [], _ :: _ => true
  | x :: a', y :: b' =>
      if N.ltb x y then true
      else if N.eqb x y then str_ltb a' b' else false
  end.

(** [max(a, b)]: the first argument unless the second is greater. *)
Definition py_max (a b : str) : str :=
  if str_ltb a b then b else a.

(** [s.split(sep)] for a one-character separator. *)
Fixpoint split (sep : char) (s : str) : list str :=
  match s with
  | [] => [[]]
  | c :: s' =>
      if N.eqb c sep then [] :: split sep s'
      else match split sep s' with
           | h :: t => (c :: h) :: t
           | [] => [[c]]
           end
  end.

(** [sep.join(l)] *)
Fixpoint join (sep : str) (l : list str) : str :=
  match l with
  | [] => []
  | [x] => x
  | x :: t => x ++ sep ++ join sep t
  end.

(** [x in l] for a set or list of strings. *)
Definition mem (x : str) (l : list str) : bool :=
  existsb (str_eqb x) l.

(** [str(n)] for a length. *)
Definition str_of_nat (n : nat) : str :=
  lit (NilZero.string_of_uint (Nat.to_uint n)).

(** ** Exceptions

    Only the classes the source tells apart: [RequestException] is caught in
    [safely_resolve_url], [idna.IDNAError] in [detect_homograph_attack];
    everything else reaches the handler of [analyze_content]. *)

Inductive exn : Type :=
| RequestException (msg : str)
| IDNAError (msg : str)
| OtherException (msg : str).

(** [str(e)] *)
Definition exn_str (e : exn) : str :=
  match e with
  | RequestException m | IDNAError m | OtherException m => m
  end.

Inductive res (A : Type) : Type :=
| Ok (a : A)
| Raise (e : exn).
Arguments Ok {A} a.
Arguments Raise {A} e.

(** ** The world outside the file: libraries and network *)

(** [tldextract.extract(url)] *)
Record ExtractResult : Type := {
  subdomain : str;
  domain : str;
  suffix : str
}.

(** The [registered_domain] property of tldextract's result. *)
Definition registered_domain (r : ExtractResult) : str :=
  if truthy (suffix r) && truthy (domain r)
  then domain r ++ lit "." ++ suffix r
  else [].

(** What the resolver reads of a response to [requests.head]. *)
Record Response : Type := {
  status_code : Z;
  location : option str
}.

Record Env : Type := {
  (** [urllib.parse.urlparse(content).scheme] *)
  urlparse_scheme : str -> res str;
  (** [tldextract.extract(url)] on a string *)
  tldextract_extract : str -> res ExtractResult;
  (** message of the exception that [tldextract.extract(None)] raises *)
  extract_none_msg : str;
  (** [requests.head(url, ...)] of the hop-th request of a resolution *)
  requests_head : nat -> str -> res Response;
  (** [urllib.parse.urljoin(base, ref)] *)
  urljoin : str -> str -> res str;
  (** [unidecode.unidecode(s)] *)
  unidecode : str -> str;
  (** [idna.decode(domain)] *)
  idna_decode : str -> res str;
  (** [re.search(pattern, s)] is a match *)
  re_search : str -> str -> bool;
  (** [urllib.parse.unquote(s)] *)
  unquote : str -> str;
  (** iteration order of a set built from the given distinct elements *)
  set_iter : list str -> list str
}.

(** ** Configuration tables of the source *)

Definition url_shorteners : list str :=
  map lit
    ["bit.ly"; "tinyurl.com"; "t.co"; "goo.gl"; "tiny.cc";
     "ow.ly"; "is.gd"; "buff.ly"; "adf.ly"; "bitly.com";
     "rebrand.ly"; "cutt.ly"; "shorturl.at"; "tiny.one";
     "rotf.lol"; "shorturl.asia"]%string.

Definition suspicious_patterns : list str :=
  map lit
    ["(?i)\.exe$"; "(?i)\.bat$"; "(?i)\.ps1$"; "(?i)phish"; "(?i)login";
     "(?i)password"; "(?i)bank"; "(?i)wallet"; "data:text/html";
     "javascript:"]%string.

Definition safe_domains : list str :=
  map lit
    ["google.com"; "microsoft.com"; "apple.com"; "amazon.com";
     "github.com"]%string.

(** Keys are Latin letters, values their look-alikes: Cyrillic letters by
    code point, and the digit one. *)
Definition homoglyph_map : list (str * list str) :=
  [ (lit "a", [[0x430%N]]);
    (lit "b", [[0x42c%N]; [0x431%N]]);
    (lit "c", [[0x441%N]]);
    (lit "e", [[0x435%N]]);
    (lit "h", [[0x43d%N]]);
    (lit "i", [[0x456%N]; lit "1"]);
    (lit "l", [[0x456%N]; lit "1"]);
    (lit "o", [[0x43e%N]]);
    (lit "p", [[0x440%N]]);
    (lit "s", [[0x455%N]]);
    (lit "t", [[0x442%N]]);
    (lit "x", [[0x445%N]]);
    (lit "y", [[0x443%N]]);
    (lit "z", [[0x455%N]]) ].

(** The confusable characters: every value of [homoglyph_map]. *)
Definition confusables : list char :=
  concat (flat_map snd homoglyph_map).

Definition LOW : str := lit "LOW".
Definition MEDIUM : str := lit "MEDIUM".
Definition HIGH : str := lit "HIGH".
Definition UNKNOWN : str := lit "UNKNOWN".

(** ** The analysis state and its monad

    [analyze_content] mutates [content], [risks] and [risk_level] and runs
    inside one [try]: an exception leaves the variables as they were when it
    was raised, so the state is returned on both outcomes. *)

Record state : Type := {
  st_content : option str;
  st_risks : list str;
  st_level : str
}.

Definition M (A : Type) : Type := state -> state * res A.

Definition ret {A} (a : A) : M A := fun s => (s, Ok a).

Definition bind {A B} (m : M A) (k : A -> M B) : M B :=
  fun s =>
    match m s with
    | (s', Ok a) => k a s'
    | (s', Raise e) => (s', Raise e)
    end.

Notation "x <- c1 ;; c2" := (bind c1 (fun x => c2))
  (at level 61, c1 at next level, right associativity).
Notation "c1 ;; c2" := (bind c1 (fun _ => c2))
  (at level 61, right associativity).

(** The outcome of a library call, or of a helper of the file. *)
Definition lift {A} (r : res A) : M A := fun s => (s, r).

(** [risks.append(r)] *)
Definition append_risk (r : str) : M unit :=
  fun s => ({| st_content := st_content s;
               st_risks := st_risks s ++ [r];
               st_level := st_level s |}, Ok tt).

(** [risks.extend(l)] *)
Definition extend_risks (l : list str) : M unit :=
  fun s => ({| st_content := st_content s;
               st_risks := st_risks s ++ l;
               st_level := st_level s |}, Ok tt).

(** [risk_level = l] *)
Definition set_level (l : str) : M unit :=
  fun s => ({| st_content := st_content s;
               st_risks := st_risks s;
               st_level := l |}, Ok tt).

(** [risk_level = max(risk_level, l)] *)
Definition escalate (l : str) : M unit :=
  fun s => ({| st_content := st_content s;
               st_risks := st_risks s;
               st_level := py_max (st_level s) l |}, Ok tt).

(** [content = c] *)
Definition set_content (c : option str) : M unit :=
  fun s => ({| st_content := c;
               st_risks := st_risks s;
               st_level := st_level s |}, Ok tt).

Definition get_content : M (option str) :=
  fun s => (s, Ok (st_content s)).

(** [if b: m] *)
Definition when (b : bool) (m : M unit) : M unit :=
  if b then m else ret tt.

(** [m] keeps [P] true of the state, whether it returns or raises. *)
Definition keeps {A} (P : state -> Prop) (m : M A) : Prop :=
  forall s, P s -> P (fst (m s)).

(** [m] raises nothing. *)
Definition returns {A} (m : M A) : Prop :=
  forall s, exists a, snd (m s) = Ok a.

(** A condition [Q] on [risk_level] together with a condition [R] on
    [risks]. *)
Definition inv (Q : str -> Prop) (R : list str -> Prop) (s : state) : Prop :=
  Q (st_level s) /\ R (st_risks s).

(** The dictionary [analyze_content] returns.  [content] is [None] when a
    shortlink resolved to a redirect without a [Location]. *)
Record AnalysisResult : Type := {
  content : option str;
  risk_level : str;
  risks : list str;
  is_malicious : bool;
  recommendation : str
}.

(** ** The checker *)

Section Checker.

Variable E : Env.

Definition is_shortlink (url : str) : bool :=
  match tldextract_extract E url with
  | Ok r => mem (registered_domain r) url_shorteners
  | Raise _ => false
  end.

(** [status_code in [301, 302, 303, 307, 308]] *)
Definition is_redirect (status : Z) : bool :=
  existsb (Z.eqb status) [301; 302; 303; 307; 308]%Z.

(** [current_url.startswith(('http://', 'https://'))] *)
Definition starts_http (u : str) : bool :=
  startswith u (lit "http://") || startswith u (lit "https://").

(** What [current_url] becomes after a redirect response: the [Location]
    header, joined to [url] when it is not absolute. *)
Definition next_url (url : str) (head_response : Response)
  : res (option str) :=
  match location head_response with
  | None => Ok None
  | Some current_url =>
      if truthy current_url && negb (starts_http current_url)
      then match urljoin E url current_url with
           | Ok joined => Ok (Some joined)
           | Raise e => Raise e
           end
      else Ok (Some current_url)
  end.

(** The [for _ in range(max_redirects)] loop of [safely_resolve_url]:
    [fuel] iterations are left and [hop] requests were sent.  Returns
    [redirect_chain] together with [current_url] at the exit of the loop, or
    with the exception that left it.  The pause between two hops changes
    no value and is left out. *)
Fixpoint resolve_loop (fuel hop : nat) (url current_url : str)
    (redirect_chain : list str) : list str * res (option str) :=
  match fuel with
  | O => (redirect_chain, Ok (Some current_url))
  | S fuel' =>
      let redirect_chain := redirect_chain ++ [current_url] in
      match requests_head E hop current_url with
      | Raise e => (redirect_chain, Raise e)
      | Ok head_response =>
          if negb (is_redirect (status_code head_response))
          then (redirect_chain, Ok (Some current_url))
          else
            match next_url url head_response with
            | Raise e => (redirect_chain, Raise e)
            | Ok None => (redirect_chain, Ok None)
            | Ok (Some next) =>
                if negb (truthy next)
                then (redirect_chain, Ok (Some next))
                else resolve_loop fuel' (S hop) url next redirect_chain
            end
      end
  end.

(** Returns [(final_url, redirect_chain, error)]. *)
Definition safely_resolve_url (url : str) (max_redirects : nat)
  : res (option str * list str * option str) :=
  match resolve_loop max_redirects 0 url url [] with
  | (redirect_chain, Ok current_url) =>
      Ok (current_url, redirect_chain, None)
  | (redirect_chain, Raise (RequestException m)) =>
      Ok (None, redirect_chain, Some (lit "Error resolving URL: " ++ m))
  | (_, Raise e) => Raise e
  end.

Definition contains_homoglyphs (url : str) : bool :=
  let normalized_url := unidecode E url in
  existsb
    (fun entry =>
       let '(char, homoglyphs) := entry in
       existsb
         (fun homoglyph =>
            str_in homoglyph url && negb (str_eqb homoglyph char))
         homoglyphs)
    homoglyph_map.

Definition detect_homograph_attack (domain : str) : res bool :=
  match idna_decode E domain with
  | Ok domain_unicode => Ok (contains_homoglyphs domain_unicode)
  | Raise (IDNAError _) => Ok (contains_homoglyphs domain)
  | Raise e => Raise e
  end.

(** [idna.decode(domain)] returns, or raises the [IDNAError] that
    [detect_homograph_attack] handles. *)
Definition idna_handled (domain : str) : Prop :=
  match idna_decode E domain with
  | Ok _ | Raise (IDNAError _) => True
  | Raise _ => False
  end.

(** [[tldextract.extract(url).suffix for url in redirect_chain]] *)
Fixpoint suffixes (redirect_chain : list str) : res (list str) :=
  match redirect_chain with
  | [] => Ok []
  | url :: rest =>
      match tldextract_extract E url with
      | Raise e => Raise e
      | Ok r =>
          match suffixes rest with
          | Raise e => Raise e
          | Ok l => Ok (suffix r :: l)
          end
      end
  end.

Definition analyze_redirect_chain (redirect_chain : list str)
  : res (list str) :=
  let risks : list str := [] in
  let risks :=
    if 3 <? length redirect_chain
    then risks ++ [lit "Suspicious number of redirects: "
                     ++ str_of_nat (length redirect_chain)]
    else risks in
  let has_http :=
    existsb (fun url => startswith url (lit "http://")) redirect_chain in
  let has_https :=
    existsb (fun url => startswith url (lit "https://")) redirect_chain in
  let risks :=
    if has_http && has_https
    then risks ++ [lit "Mixed HTTP/HTTPS redirects detected"]
    else risks in
  match suffixes redirect_chain with
  | Raise e => Raise e
  | Ok domains =>
      let distinct := nodup str_eq_dec domains in
      Ok (if 2 <? length distinct
          then risks ++ [lit "Multiple country domains in redirect chain: "
                           ++ join (lit ", ") (set_iter E distinct)]
          else risks)
  end.

(** The three risk strings of [analyze_redirect_chain]. *)
Definition count_risk (redirect_chain : list str) : str :=
  lit "Suspicious number of redirects: "
  ++ str_of_nat (length redirect_chain).

Definition mixed_risk : str := lit "Mixed HTTP/HTTPS redirects detected".

Definition suffix_risk (domains : list str) : str :=
  lit "Multiple country domains in redirect chain: "
  ++ join (lit ", ") (set_iter E (nodup str_eq_dec domains)).


(** *** [analyze_content] *)

Definition homoglyph_note : str :=
  lit "URL contains visually similar characters (homoglyphs)".

(** The [else] branch after a resolution without error. *)
Definition resolved_branch (final_url : option str) (redirects : list str)
  : M unit :=
  redirect_risks <- lift (analyze_redirect_chain redirects) ;;
  extend_risks redirect_risks ;;
  when (match redirect_risks with [] => false | _ :: _ => true end)
       (set_level HIGH) ;;
  set_content final_url ;;
  append_risk (lit "URL redirect chain: " ++ join (lit " -> ") redirects).

(** [if is_shortlink(content): ...] *)
Definition shortlink_stage (content : str) : M unit :=
  when (is_shortlink content)
    (r <- lift (safely_resolve_url content 5) ;;
     let '(final_url, redirects, error) := r in
     match error with
     | Some err =>
         if truthy err
         then append_risk (lit "Error resolving shortened URL: " ++ err) ;;
              set_level HIGH
         else resolved_branch final_url redirects
     | None => resolved_branch final_url redirects
     end).

Definition check_homoglyphs (content : str) : M unit :=
  when (contains_homoglyphs content)
    (append_risk homoglyph_note ;; escalate MEDIUM).

Definition check_domain (domain : str) : M unit :=
  when (negb (mem domain safe_domains))
    (append_risk (lit "Unknown domain: " ++ domain) ;; escalate MEDIUM).

Definition check_homograph (domain : str) : M unit :=
  attack <- lift (detect_homograph_attack domain) ;;
  when attack
    (append_risk
       (lit "Suspicious homograph attack detected in domain: " ++ domain) ;;
     set_level HIGH).

(** [for pattern in suspicious_patterns: ...] *)
Fixpoint check_patterns (content : str) (patterns : list str) : M unit :=
  match patterns with
  | [] => ret tt
  | pattern :: rest =>
      when (re_search E pattern content)
        (append_risk (lit "Suspicious pattern found: " ++ pattern) ;;
         set_level HIGH) ;;
      check_patterns content rest
  end.

Definition check_encoded (content : str) : M unit :=
  let decoded_url := unquote E content in
  when (negb (str_eqb decoded_url content))
    (append_risk (lit "URL contains encoded characters") ;; escalate MEDIUM).

Definition check_subdomains (domain_info : ExtractResult) : M unit :=
  when (3 <? length (split (N_of_ascii ".") (subdomain domain_info)))
    (append_risk (lit "Suspicious number of subdomains") ;; set_level HIGH).

(** The checks that follow the homoglyph check. *)
Definition later_checks (content domain_name : str)
    (domain_info : ExtractResult) : M unit :=
  check_domain domain_name ;;
  check_homograph domain_name ;;
  check_patterns content suspicious_patterns ;;
  check_encoded content ;;
  check_subdomains domain_info.

(** Lines 139 to 166: the checks on the working [content]. *)
Definition url_checks : M unit :=
  c <- get_content ;;
  match c with
  | None => lift (Raise (OtherException (extract_none_msg E)))
  | Some content =>
      domain_info <- lift (tldextract_extract E content) ;;
      let domain_name :=
        domain domain_info ++ lit "." ++ suffix domain_info in
      check_homoglyphs content ;;
      check_domain domain_name ;;
      check_homograph domain_name ;;
      check_patterns content suspicious_patterns ;;
      check_encoded content ;;
      check_subdomains domain_info
  end.

(** The body of the [try]. *)
Definition analyze_body (content : str) : M unit :=
  scheme <- lift (urlparse_scheme E content) ;;
  when (truthy scheme) (shortlink_stage content ;; url_checks).

Definition initial_state (content : str) : state :=
  {| st_content := Some content; st_risks := []; st_level := LOW |}.

(** The [except Exception as e] handler. *)
Definition handle (out : state * res unit) : state :=
  match out with
  | (s, Ok _) => s
  | (s, Raise e) =>
      {| st_content := st_content s;
         st_risks := st_risks s ++ [lit "Error analyzing URL: " ++ exn_str e];
         st_level := UNKNOWN |}
  end.

(** The returned dictionary. *)
Definition verdict (s : state) : AnalysisResult :=
  {| content := st_content s;
     risk_level := st_level s;
     risks := st_risks s;
     is_malicious := str_eqb (st_level s) HIGH;
     recommendation :=
       if str_eqb (st_level s) HIGH then lit "BLOCK"
       else if str_eqb (st_level s) MEDIUM then lit "WARN"
       else lit "ALLOW" |}.

Definition analyze_content (content : str) : AnalysisResult :=
  verdict (handle (analyze_body content (initial_state content))).

End Checker.

(** ** Notions used to describe the resolver and the verdict *)

(** [rest] are the URLs that [safely_resolve_url] visits after
    [current_url]: each one is the non-empty target of the redirect that the
    request to the one before it, the [hop]-th of the resolution, answered. *)
Inductive follows (E : Env) (url : str) : nat -> str -> list str -> Prop :=
| follows_end (hop : nat) (current_url : str) :
    follows E url hop current_url []
| follows_step (hop : nat) (current_url : str) (head_response : Response)
    (next : str) (rest : list str) :
    requests_head E hop current_url = Ok head_response ->
    is_redirect (status_code head_response) = true ->
    next_url E url head_response = Ok (Some next) ->
    truthy next = true ->
    follows E url (S hop) next rest ->
    follows E url hop current_url (next :: rest).


(** The informational entry that line 137 appends. *)
Definition is_chain_note (risk : str) : bool :=
  startswith risk (lit "URL redirect chain: ").

(** [risk_level] is one of the four levels of the source. *)
Definition known_level (l : str) : Prop :=
  l = LOW \/ l = MEDIUM \/ l = HIGH \/ l = UNKNOWN.

(** A state in which the level agrees with the risks: LOW with nothing but
    chain notes recorded, or MEDIUM or HIGH with some risk recorded. *)
Definition graded (s : state) : Prop :=
  (st_level s = LOW /\ forallb is_chain_note (st_risks s) = true)
  \/ ((st_level s = MEDIUM \/ st_level s = HIGH) /\ st_risks s <> []).

(** The entries that the pattern loop appends, in the order of
    [suspicious_patterns]. *)
Definition pattern_risks (E : Env) (content : str) (patterns : list str)
  : list str :=
  map (fun pattern => lit "Suspicious pattern found: " ++ pattern)
      (filter (fun pattern => re_search E pattern content) patterns).

(** The state after a check: when it [fired], its [risk] is appended and
    the level becomes [level] of the level before. *)
Definition note_if (fired : bool) (risk : str) (level : str -> str)
    (s : state) : state :=
  {| st_content := st_content s;
     st_risks := st_risks s ++ (if fired then [risk] else []);
     st_level := if fired then level (st_level s) else st_level s |}.

(** The entries that the checks of lines 142 to 166 append, in their
    order, for the working [content], what tldextract found in it, and the
    answer of [detect_homograph_attack]. *)
Definition check_risks (E : Env) (content : str) (domain_info : ExtractResult)
    (attack : bool) : list str :=
  let domain_name := domain domain_info ++ lit "." ++ suffix domain_info in
  (if contains_homoglyphs E content then [homoglyph_note] else [])
  ++ (if mem domain_name safe_domains then []
      else [lit "Unknown domain: " ++ domain_name])
  ++ (if attack
      then [lit "Suspicious homograph attack detected in domain: "
              ++ domain_name]
      else [])
  ++ pattern_risks E content suspicious_patterns
  ++ (if str_eqb (unquote E content) content then []
      else [lit "URL contains encoded characters"])
  ++ (if 3 <? length (split (N_of_ascii ".") (subdomain domain_info))
      then [lit "Suspicious number of subdomains"]
      else []).

(** The level that the same checks leave, from the level [l] before
    them. *)
Definition check_level (E : Env) (content : str) (domain_info : ExtractResult)
    (attack : bool) (l : str) : str :=
  let domain_name := domain domain_info ++ lit "." ++ suffix domain_info in
  let l := if contains_homoglyphs E content then py_max l MEDIUM else l in
  let l := if mem domain_name safe_domains then l else py_max l MEDIUM in
  let l := if attack then HIGH else l in
  let l := if existsb (fun pattern => re_search E pattern content)
                suspicious_patterns
           then HIGH else l in
  let l := if str_eqb (unquote E content) content then l
           else py_max l MEDIUM in
  if 3 <? length (split (N_of_ascii ".") (subdomain domain_info))
  then HIGH else l.

(** ** Reading the QR code *)

(** The image libraries: [cv2.imread], [pyzbar.decode] (the [data] of each
    decoded object) and [bytes.decode('utf-8')]. *)
Record Vision : Type := {
  image : Type;
  cv2_imread : str -> res image;
  pyzbar_decode : image -> res (list (list Byte.byte));
  utf8_decode : list Byte.byte -> res str;
  (** [analyze_content(None)], which no return of [decode_qr] leads to *)
  analyze_none : AnalysisResult
}.

(** What [check_qr_safety] returns: [{"error": error}] or the dictionary
    of [analyze_content]. *)
Inductive QRResult : Type :=
| QRError (error : str)
| QRAnalysis (result : AnalysisResult).

Section QR.

Variable V : Vision.
Variable E : Env.

(** The [except Exception as e] of [decode_qr]. *)
Definition decode_failure (e : exn) : option str * option str :=
  (None, Some (lit "Error decoding QR code: " ++ exn_str e)).

(** Returns [(content, error)]. *)
Definition decode_qr (image_path : str) : option str * option str :=
  match cv2_imread V image_path with
  | Raise e => decode_failure e
  | Ok img =>
      match pyzbar_decode V img with
      | Raise e => decode_failure e
      | Ok decoded_objects =>
          match decoded_objects with
          | [] => (None, Some (lit "No QR code found in image"))
          | first :: _ =>
              match utf8_decode V first with
              | Ok text => (Some text, None)
              | Raise e => decode_failure e
              end
          end
      end
  end.

Definition check_qr_safety (image_path : str) : QRResult :=
  let '(content, error) := decode_qr image_path in
  match error with
  | Some err =>
      if truthy err then QRError err
      else match content with
           | Some text => QRAnalysis (analyze_content E text)
           | None => QRAnalysis (analyze_none V)
           end
  | None =>
      match content with
      | Some text => QRAnalysis (analyze_content E text)
      | None => QRAnalysis (analyze_none V)
      end
  end.

End QR.

(** ** A reference environment

    Executable models of the library calls, precise enough to run the
    checker on plain lower-case ASCII URLs; the network is a parameter.
    Each model says what it leaves out.  The general theorems below hold for
    every [Env]; this one serves to evaluate the checker on concrete
    inputs. *)

Module Reference.

Definition between (lo hi c : N) : bool := (lo <=? c)%N && (c <=? hi)%N.

Definition is_alpha (c : char) : bool := between 65 90 c || between 97 122 c.
Definition is_digit (c : char) : bool := between 48 57 c.

(** [scheme_chars] of urllib and of tldextract: letters, digits, [+-.] *)
Definition scheme_char (c : char) : bool :=
  is_alpha c || is_digit c || existsb (N.eqb c) (lit "+-.").

Definition lower (c : char) : char :=
  if between 65 90 c then (c + 32)%N else c.

(** The longest prefix whose characters satisfy [p], and the rest. *)
Fixpoint span (p : char -> bool) (s : str) : str * str :=
  match s with
  | c :: s' =>
      if p c then let '(a, b) := span p s' in (c :: a, b) else ([], s)
  | [] => ([], [])
  end.

(** [urlsplit]: a scheme is a letter followed by scheme characters up to
    the first colon.  Returns the lower-cased scheme and what follows. *)
Definition split_scheme (url : str) : str * str :=
  match url with
  | c :: _ =>
      if is_alpha c
      then let '(pre, rest) := span scheme_char url in
           match rest with
           | 58%N :: rest' => (map lower pre, rest')
           | _ => ([], url)
           end
      else ([], url)
  | [] => ([], url)
  end.

Definition stops_netloc (c : char) : bool := existsb (N.eqb c) (lit "/?#").

(** [urlparse(url).scheme], with the bracket test of [urlsplit] on the
    network location.  Left out: stripping of control characters and the
    NFKC test of the network location. *)
Definition urlparse_scheme_model (url : str) : res str :=
  let '(scheme, rest) := split_scheme url in
  if startswith rest (lit "//")
  then let netloc := fst (span (fun c => negb (stops_netloc c))
                            (skipn 2 rest)) in
       if xorb (existsb (N.eqb 91%N) netloc) (existsb (N.eqb 93%N) netloc)
       then Raise (OtherException (lit "Invalid IPv6 URL"))
       else Ok scheme
  else Ok scheme.

(** The part of [s] after the last [c], or [s] without any. *)
Fixpoint after_last (c : char) (s : str) : str :=
  match s with
  | [] => []
  | x :: s' =>
      if existsb (N.eqb c) s' then after_last c s'
      else if N.eqb x c then s' else s
  end.

(** The network location as tldextract finds it: scheme, path, query,
    fragment, user and port removed.  Left out: stripping of blanks and of
    trailing dots. *)
Definition netloc_of (url : str) : str :=
  let schemeless :=
    if startswith url (lit "//") then skipn 2 url
    else let '(pre, rest) := span scheme_char url in
         if truthy pre && startswith rest (lit "://")
         then skipn 3 rest else url in
  let host := fst (span (fun c => negb (stops_netloc c)) schemeless) in
  fst (span (fun c => negb (N.eqb c 58)) (after_last 64%N host)).


(** Public suffixes the model knows: one label each. *)
Definition known_suffixes : list str :=
  map lit ["com"; "org"; "net"; "io"; "ly"; "co"; "gl"; "cc"; "gd"; "at";
           "one"; "lol"; "asia"]%string.

(** [tldextract.extract]: the last label is the suffix when it is a known
    one, the label before it the domain, the others the subdomain.  Left
    out: suffixes of several labels and IP addresses. *)
Definition tldextract_extract_model (url : str) : ExtractResult :=
  match rev (split 46%N (netloc_of url)) with
  | last :: more =>
      if mem (map lower last) known_suffixes
      then match more with
           | d :: subs =>
               {| subdomain := join (lit ".") (rev subs);
                  domain := d; suffix := last |}
           | [] => {| subdomain := []; domain := []; suffix := last |}
           end
      else {| subdomain := join (lit ".") (rev more);
              domain := last; suffix := [] |}
  | [] => {| subdomain := []; domain := []; suffix := [] |}
  end.

(** [idna.decode] on a domain of non-empty labels of lower-case letters
    and digits, which it returns unchanged.  Everything else, A-labels
    included, is left out: the model answers with the error on which the
    source keeps the raw domain. *)
Definition idna_decode_model (domain : str) : res str :=
  if forallb (fun label => truthy label
                           && forallb (fun c => between 97 122 c || is_digit c)
                                label)
       (split 46%N domain)
  then Ok domain
  else Raise (IDNAError (lit "not decoded")).

(** [s.endswith(p)] *)
Definition endswith (s p : str) : bool := startswith (rev s) (rev p).

(** [re.search] for the patterns of [suspicious_patterns]: an optional
    [(?i)], a literal with escaped dots, an optional [$] that matches at
    the end or before a final newline.  Letter case is folded on ASCII
    only. *)
Definition re_search_model (pattern s : str) : bool :=
  let icase := startswith pattern (lit "(?i)") in
  let p1 := if icase then skipn 4 pattern else pattern in
  let anchored := endswith p1 (lit "$") in
  let p2 := if anchored then removelast p1 else p1 in
  let literal := filter (fun c => negb (N.eqb c 92)) p2 in
  let fold := if icase then map lower else (fun x : str => x) in
  if anchored
  then endswith (fold s) (fold literal)
       || endswith (fold s) (fold literal ++ [10%N])
  else str_in (fold literal) (fold s).

Definition hex_value (c : char) : option N :=
  if is_digit c then Some (c - 48)%N
  else if between 97 102 c then Some (c - 87)%N
  else if between 65 70 c then Some (c - 55)%N
  else None.

(** [urllib.parse.unquote]: escapes of ASCII characters are decoded.
    Left out: escapes of bytes above 127, which are kept as they are. *)
Fixpoint unquote_model (s : str) : str :=
  match s with
  | [] => []
  | c :: t =>
      if N.eqb c 37
      then match t with
           | h :: l :: rest =>
               match hex_value h, hex_value l with
               | Some a, Some b =>
                   if (16 * a + b <? 128)%N
                   then (16 * a + b)%N :: unquote_model rest
                   else c :: unquote_model t
               | _, _ => c :: unquote_model t
               end
           | _ => c :: unquote_model t
           end
      else c :: unquote_model t
  end.

(** [urllib.parse.urljoin] for a base [scheme://netloc/path] and a
    reference that is absolute, starts with a slash, or is a plain relative
    path.  Left out: dot segments, queries and fragments. *)
Definition urljoin_model (base ref : str) : str :=
  let '(scheme, rest) := split_scheme base in
  let '(netloc, path) :=
    span (fun c => negb (stops_netloc c)) (skipn 2 rest) in
  if negb (truthy ref) then base
  else if truthy (fst (split_scheme ref)) then ref
  else if startswith ref (lit "//") then scheme ++ lit ":" ++ ref
  else if startswith ref (lit "/")
       then scheme ++ lit "://" ++ netloc ++ ref
       else scheme ++ lit "://" ++ netloc
            ++ rev (snd (span (fun c => negb (N.eqb c 47)) (rev path)))
            ++ (if truthy path then [] else lit "/") ++ ref.

(** The environment over a network [head].  The source never reads the
    value of [unidecode]; dropping the non-ASCII characters stands for it.
    A set is iterated in the order of first occurrence. *)
Definition env (head : nat -> str -> res Response) : Env :=
  {| urlparse_scheme := urlparse_scheme_model;
     tldextract_extract := fun url => Ok (tldextract_extract_model url);
     extract_none_msg := lit "'NoneType' object has no attribute 'find'";
     requests_head := head;
     urljoin := fun base ref => Ok (urljoin_model base ref);
     unidecode := filter (fun c => (c <? 128)%N);
     idna_decode := idna_decode_model;
     re_search := re_search_model;
     unquote := unquote_model;
     set_iter := fun l => l |}.

(** A network that answers nothing: every request times out. *)
Definition offline : nat -> str -> res Response :=
  fun _ _ => Raise (RequestException (lit "Read timed out."))%string.

(** A network of fixed redirects: a listed URL answers with its status
    and [Location], any other URL with 200. *)
Definition static (table : list (str * (Z * str)))
  : nat -> str -> res Response :=
  fun _ url =>
    match find (fun entry => str_eqb (fst entry) url) table with
    | Some (_, (status, target)) =>
        Ok {| status_code := status; location := Some target |}
    | None => Ok {| status_code := 200%Z; location := None |}
    end.

End Reference.

(** * Properties *)

(** ** Strings *)

Lemma str_eqb_eq (a b : str) : str_eqb a b = true <-> a = b.
Proof.
  unfold str_eqb. destruct (str_eq_dec a b); split; congruence.
Qed.

Lemma startswith_single (c : char) (s : str) :
  startswith s [c] = true <-> exists t, s = c :: t.
Proof.
  destruct s as [|y t]; simpl.
  - split; [discriminate | intros [t H]; discriminate].
  - rewrite andb_true_r, N.eqb_eq. split.
    + intros ->. now exists t.
    + intros [t' H]. congruence.
Qed.

(** A one-character string occurs in [s] exactly when its character does. *)
Lemma str_in_single (c : char) (s : str) :
  str_in [c] s = true <-> In c s.
Proof.
  induction s as [|y t IH].
  - simpl. split; [discriminate | tauto].
  - change (str_in [c] (y :: t))
      with (startswith (y :: t) [c] || str_in [c] t).
    rewrite orb_true_iff, startswith_single, IH. simpl. split.
    + intros [[t' H] | H]; [left; congruence | now right].
    + intros [H | H]; [left; exists t; congruence | now right].
Qed.

Lemma startswith_inv (s p : str) :
  startswith s p = true -> exists t, s = p ++ t.
Proof.
  revert s. induction p as [|x p IH]; intros s H.
  - now exists s.
  - destruct s as [|y s]; simpl in H; [discriminate|].
    apply andb_true_iff in H. destruct H as [Hxy H].
    apply N.eqb_eq in Hxy. subst y.
    destruct (IH _ H) as [t ->]. now exists t.
Qed.

(** An [https://] URL is not an [http://] URL. *)
Lemma https_not_http (u : str) :
  startswith u (lit "https://") = true ->
  startswith u (lit "http://") = false.
Proof.
  intros H. destruct (startswith_inv _ _ H) as [t ->]. reflexivity.
Qed.

(** ** The string order behind [max] *)

Lemma py_max_LOW_MEDIUM : py_max LOW MEDIUM = MEDIUM.
Proof. reflexivity. Qed.

Lemma py_max_MEDIUM_MEDIUM : py_max MEDIUM MEDIUM = MEDIUM.
Proof. reflexivity. Qed.

(** ["HIGH" < "MEDIUM"] as strings, so [max] answers ["MEDIUM"]. *)
Lemma py_max_HIGH_MEDIUM : py_max HIGH MEDIUM = MEDIUM.
Proof. reflexivity. Qed.

(** ** Homoglyphs *)

Section Homoglyphs.

Variable E : Env.

(** Every look-alike of the map is one character, differs from its key,
    and is listed in [confusables]. *)
Lemma homoglyph_map_entries (k : str) (hs : list str) (h : str) :
  In (k, hs) homoglyph_map -> In h hs ->
  exists c, h = [c] /\ In c confusables /\ str_eqb h k = false.
Proof.
  intros Hk Hh. unfold homoglyph_map in Hk. simpl in Hk.
  repeat (destruct Hk as [Hk | Hk];
          [ injection Hk as <- <-; simpl in Hh;
            repeat (destruct Hh as [<- | Hh];
                    [ eexists; split; [reflexivity|];
                      split; [vm_compute; tauto | reflexivity] |]);
            contradiction |]).
  contradiction.
Qed.

Lemma confusables_in_map (c : char) :
  In c confusables ->
  exists k hs, In (k, hs) homoglyph_map /\ In [c] hs /\ str_eqb [c] k = false.
Proof.
  intros H. unfold confusables, homoglyph_map in H. simpl in H.
  repeat (destruct H as [<- | H];
          [ match goal with
            | |- exists k hs, In _ ?m /\ In [?x] _ /\ _ =>
                let e := eval vm_compute in
                  (find (fun e => existsb (str_eqb [x]) (snd e)) homoglyph_map)
                in match e with
                   | Some (?k, ?hs) => exists k, hs
                   end
            end;
            split; [vm_compute; tauto |];
            split; [vm_compute; tauto | reflexivity] |]).
  contradiction.
Qed.

(** [contains_homoglyphs] answers true exactly on the strings that hold a
    confusable character. *)
Lemma contains_homoglyphs_iff (url : str) :
  contains_homoglyphs E url = true <->
  exists c, In c confusables /\ In c url.
Proof.
  unfold contains_homoglyphs. cbv zeta. rewrite existsb_exists. split.
  - intros [[k hs] [Hk H]]. apply existsb_exists in H.
    destruct H as [h [Hh H]]. apply andb_true_iff in H. destruct H as [Hin _].
    destruct (homoglyph_map_entries _ _ _ Hk Hh) as [c [-> [Hc _]]].
    exists c. split; [exact Hc | now apply str_in_single].
  - intros [c [Hc Hin]].
    destruct (confusables_in_map _ Hc) as [k [hs [Hk [Hh Hne]]]].
    exists (k, hs). split; [exact Hk|].
    apply existsb_exists. exists [c]. split; [exact Hh|].
    apply andb_true_iff. split; [now apply str_in_single|].
    now rewrite Hne.
Qed.

End Homoglyphs.

(** C9: on a pure-ASCII string that holds no character of the confusable
    set, [contains_homoglyphs] returns false. *)
Theorem contains_homoglyphs_plain_ascii (E : Env) (url : str) :
  (forall c, In c url -> (c < 128)%N) ->
  (forall c, In c url -> ~ In c confusables) ->
  contains_homoglyphs E url = false.
Proof.
  intros _ Hnone.
  destruct (contains_homoglyphs E url) eqn:Hc; [exfalso | reflexivity].
  apply contains_homoglyphs_iff in Hc. destruct Hc as [c [Hc Hin]].
  exact (Hnone c Hin Hc).
Qed.

Lemma contains_homoglyphs_plain_ascii_witness :
  contains_homoglyphs (Reference.env Reference.offline) (lit "github.com")
  = false.
Proof.
  apply contains_homoglyphs_plain_ascii.
  - intros c H. simpl in H.
    repeat (destruct H as [<- | H]; [reflexivity|]). contradiction.
  - intros c H. simpl in H.
    repeat (destruct H as [<- | H];
            [ vm_compute; intros K;
              repeat (destruct K as [K | K]; [discriminate K|]);
              exact K |]).
    contradiction.
Defined.

(** The digit one is a confusable character, so a string that holds it is
    flagged. *)
Lemma contains_homoglyphs_digit_one (E : Env) (url : str) :
  In 49%N url -> contains_homoglyphs E url = true.
Proof.
  intros H. apply contains_homoglyphs_iff. exists 49%N. split; [|exact H].
  vm_compute. tauto.
Qed.

(** ** Redirect resolution *)

Section Resolver.

Variable E : Env.

(** Each iteration appends one URL, and there are at most [fuel]. *)
Lemma resolve_loop_length (fuel : nat) :
  forall (hop : nat) (url current_url : str) (chain : list str),
    length (fst (resolve_loop E fuel hop url current_url chain))
    <= length chain + fuel.
Proof.
  induction fuel as [|fuel IH]; intros hop url cur chain; simpl.
  - lia.
  - assert (Hlen : length (chain ++ [cur]) = S (length chain))
      by (rewrite length_app; simpl; lia).
    destruct (requests_head E hop cur) as [resp|e]; simpl; [|lia].
    destruct (negb (is_redirect (status_code resp))); simpl; [lia|].
    destruct (next_url E url resp) as [[next|]|e]; simpl; try lia.
    destruct (negb (truthy next)); simpl; [lia|].
    specialize (IH (S hop) url next (chain ++ [cur])). lia.
Qed.

(** The chain never holds more URLs than requests were allowed. *)
Lemma safely_resolve_url_chain (url : str) (max_redirects : nat) :
  match safely_resolve_url E url max_redirects with
  | Ok (_, redirect_chain, _) => length redirect_chain <= max_redirects
  | Raise _ => True
  end.
Proof.
  unfold safely_resolve_url.
  pose proof (resolve_loop_length max_redirects 0 url url []) as H.
  destruct (resolve_loop E max_redirects 0 url url []) as [chain [cur|e]];
    simpl in H; [exact H|].
  destruct e; simpl; auto.
Qed.

End Resolver.

(** C6: whatever the remote hosts answer, the chain returned by redirect
    resolution with the default bound of 5 hops has at most 5 + 1 entries. *)
Theorem safely_resolve_url_chain_bound (E : Env) (url : str) :
  match safely_resolve_url E url 5 with
  | Ok (_, redirect_chain, _) => length redirect_chain <= 5 + 1
  | Raise _ => True
  end.
Proof.
  pose proof (safely_resolve_url_chain E url 5) as H.
  destruct (safely_resolve_url E url 5) as [[[fin chain] err]|e]; [lia | exact I].
Qed.

(** ** Redirect chain analysis *)

Section ChainAnalyzer.

Variable E : Env.

(** The list is the three optional entries, in this order. *)
Lemma analyze_redirect_chain_eq (chain domains : list str) :
  suffixes E chain = Ok domains ->
  analyze_redirect_chain E chain =
  Ok ((if 3 <? length chain then [count_risk chain] else [])
      ++ (if existsb (fun url => startswith url (lit "http://")) chain
             && existsb (fun url => startswith url (lit "https://")) chain
          then [mixed_risk] else [])
      ++ (if 2 <? length (nodup str_eq_dec domains)
          then [suffix_risk E domains] else [])).
Proof.
  intros H. unfold analyze_redirect_chain. rewrite H.
  destruct (3 <? length chain);
    destruct (existsb _ chain && existsb _ chain);
    destruct (2 <? length (nodup str_eq_dec domains)); reflexivity.
Qed.






End ChainAnalyzer.




(** ** Invariants of the analysis state *)

Lemma keeps_bind {A B} (P : state -> Prop) (m : M A) (k : A -> M B) :
  keeps P m -> (forall a, keeps P (k a)) -> keeps P (bind m k).
Proof.
  intros Hm Hk s Hs. unfold bind. specialize (Hm s Hs).
  destruct (m s) as [s' [a|e]]; simpl in *; [now apply Hk | exact Hm].
Qed.

Lemma returns_bind {A B} (m : M A) (k : A -> M B) :
  returns m -> (forall a, returns (k a)) -> returns (bind m k).
Proof.
  intros Hm Hk s. unfold bind. destruct (Hm s) as [a Ha].
  destruct (m s) as [s' r]. simpl in Ha. subst r. apply Hk.
Qed.

(** Sequencing after a computation that returned. *)
Lemma bind_ok {A B} (m : M A) (k : A -> M B) (s s' : state) (a : A) :
  m s = (s', Ok a) -> bind m k s = k a s'.
Proof. intros H. unfold bind. now rewrite H. Qed.

Lemma keeps_ret {A} (P : state -> Prop) (a : A) : keeps P (ret a).
Proof. intros s Hs. exact Hs. Qed.

Lemma returns_ret {A} (a : A) : returns (ret a).
Proof. intros s. now exists a. Qed.

Lemma keeps_lift {A} (P : state -> Prop) (r : res A) : keeps P (lift r).
Proof. intros s Hs. exact Hs. Qed.

Lemma keeps_when (P : state -> Prop) (b : bool) (m : M unit) :
  keeps P m -> keeps P (when b m).
Proof. intros H. destruct b; [exact H | apply keeps_ret]. Qed.

Lemma returns_when (b : bool) (m : M unit) :
  returns m -> returns (when b m).
Proof. intros H. destruct b; [exact H | apply returns_ret]. Qed.

Lemma returns_append_risk (r : str) : returns (append_risk r).
Proof. intros s. now exists tt. Qed.

Lemma returns_set_level (l : str) : returns (set_level l).
Proof. intros s. now exists tt. Qed.

Lemma returns_escalate (l : str) : returns (escalate l).
Proof. intros s. now exists tt. Qed.

Section Invariant.

(** The condition [R] on [risks] is one that appending cannot break. *)
Variable Q : str -> Prop.
Variable R : list str -> Prop.
Hypothesis R_grows : forall l l', R l -> R (l ++ l').

Lemma keeps_append_risk (r : str) : keeps (inv Q R) (append_risk r).
Proof. intros s [HQ HR]. split; simpl; auto. Qed.

Lemma keeps_extend_risks (l : list str) : keeps (inv Q R) (extend_risks l).
Proof. intros s [HQ HR]. split; simpl; auto. Qed.

Lemma keeps_set_content (c : option str) : keeps (inv Q R) (set_content c).
Proof. intros s H. exact H. Qed.

Lemma keeps_set_level (l : str) : Q l -> keeps (inv Q R) (set_level l).
Proof. intros Hl s [HQ HR]. split; simpl; auto. Qed.

Lemma keeps_escalate (l : str) :
  (forall x, Q x -> Q (py_max x l)) -> keeps (inv Q R) (escalate l).
Proof. intros Hl s [HQ HR]. split; simpl; auto. Qed.

(** Appending a note and setting the level to HIGH. *)
Lemma keeps_flag_high (r : str) :
  Q HIGH -> keeps (inv Q R) (append_risk r ;; set_level HIGH).
Proof.
  intros HH. apply keeps_bind; [apply keeps_append_risk|].
  intros _. now apply keeps_set_level.
Qed.

(** Appending a note and escalating to MEDIUM. *)
Lemma keeps_flag_medium (r : str) :
  (forall x, Q x -> Q (py_max x MEDIUM)) ->
  keeps (inv Q R) (append_risk r ;; escalate MEDIUM).
Proof.
  intros HM. apply keeps_bind; [apply keeps_append_risk|].
  intros _. now apply keeps_escalate.
Qed.

Variable E : Env.

Lemma keeps_resolved_branch (final_url : option str) (redirects : list str) :
  Q HIGH -> keeps (inv Q R) (resolved_branch E final_url redirects).
Proof.
  intros HH. unfold resolved_branch.
  apply keeps_bind; [apply keeps_lift|]. intros rr.
  apply keeps_bind; [apply keeps_extend_risks|]. intros _.
  apply keeps_bind; [apply keeps_when; now apply keeps_set_level|]. intros _.
  apply keeps_bind; [apply keeps_set_content|]. intros _.
  apply keeps_append_risk.
Qed.

Lemma keeps_shortlink_stage (content : str) :
  Q HIGH -> keeps (inv Q R) (shortlink_stage E content).
Proof.
  intros HH. unfold shortlink_stage. apply keeps_when.
  apply keeps_bind; [apply keeps_lift|]. intros [[final_url redirects] error].
  destruct error as [err|]; [|now apply keeps_resolved_branch].
  destruct (truthy err); [now apply keeps_flag_high|].
  now apply keeps_resolved_branch.
Qed.

Lemma keeps_check_patterns (content : str) (patterns : list str) :
  Q HIGH -> keeps (inv Q R) (check_patterns E content patterns).
Proof.
  intros HH. induction patterns as [|p rest IH]; simpl.
  - apply keeps_ret.
  - apply keeps_bind; [|intros _; exact IH].
    apply keeps_when. now apply keeps_flag_high.
Qed.

Lemma keeps_later_checks (content domain_name : str)
    (domain_info : ExtractResult) :
  Q HIGH -> (forall x, Q x -> Q (py_max x MEDIUM)) ->
  keeps (inv Q R) (later_checks E content domain_name domain_info).
Proof.
  intros HH HM. unfold later_checks.
  apply keeps_bind;
    [apply keeps_when; now apply keeps_flag_medium|]. intros _.
  apply keeps_bind.
  { unfold check_homograph. apply keeps_bind; [apply keeps_lift|].
    intros b. apply keeps_when. now apply keeps_flag_high. }
  intros _.
  apply keeps_bind; [now apply keeps_check_patterns|]. intros _.
  apply keeps_bind.
  { unfold check_encoded. apply keeps_when. now apply keeps_flag_medium. }
  intros _. unfold check_subdomains. apply keeps_when.
  now apply keeps_flag_high.
Qed.

End Invariant.

(** ** The analysis *)

Section Analysis.

Variable E : Env.

Lemma returns_flag_high (r : str) :
  returns (append_risk r ;; set_level HIGH).
Proof.
  apply returns_bind; [apply returns_append_risk|].
  intros _. apply returns_set_level.
Qed.

Lemma returns_flag_medium (r : str) :
  returns (append_risk r ;; escalate MEDIUM).
Proof.
  apply returns_bind; [apply returns_append_risk|].
  intros _. apply returns_escalate.
Qed.

Lemma returns_check_patterns (content : str) (patterns : list str) :
  returns (check_patterns E content patterns).
Proof.
  induction patterns as [|p rest IH]; simpl.
  - apply returns_ret.
  - apply returns_bind; [|intros _; exact IH].
    apply returns_when, returns_flag_high.
Qed.

Lemma returns_check_homograph (domain_name : str) :
  idna_handled E domain_name -> returns (check_homograph E domain_name).
Proof.
  intros H. unfold check_homograph, detect_homograph_attack.
  unfold idna_handled in H.
  destruct (idna_decode E domain_name) as [d|[m|m|m]]; try contradiction;
    (apply returns_bind; [intros s; eexists; reflexivity|]);
    intros b; apply returns_when, returns_flag_high.
Qed.

(** After the homoglyph check only [idna.decode] can fail. *)
Lemma returns_later_checks (content domain_name : str)
    (domain_info : ExtractResult) :
  idna_handled E domain_name ->
  returns (later_checks E content domain_name domain_info).
Proof.
  intros H. unfold later_checks.
  apply returns_bind; [apply returns_when, returns_flag_medium|]. intros _.
  apply returns_bind; [now apply returns_check_homograph|]. intros _.
  apply returns_bind; [apply returns_check_patterns|]. intros _.
  apply returns_bind;
    [unfold check_encoded; apply returns_when, returns_flag_medium|].
  intros _. unfold check_subdomains. apply returns_when, returns_flag_high.
Qed.

(** The handler keeps the risks recorded before the failure. *)
Lemma handle_risks (out : state * res unit) (r : str) :
  In r (st_risks (fst out)) -> In r (st_risks (handle out)).
Proof.
  destruct out as [s [u|e]]; simpl; [tauto|].
  intros H. apply in_or_app. now left.
Qed.

(** What the analysis does once the content has a scheme. *)
Lemma analyze_body_scheme (content scheme : str) :
  urlparse_scheme E content = Ok scheme -> truthy scheme = true ->
  analyze_body E content (initial_state content)
  = (shortlink_stage E content ;; url_checks E) (initial_state content).
Proof.
  intros Hs Ht. unfold analyze_body. unfold bind at 1, lift.
  rewrite Hs, Ht. reflexivity.
Qed.

(** What [url_checks] does on a working content that tldextract accepts
    and that holds a confusable character. *)
Lemma url_checks_flagged (s : state) (w : str) (domain_info : ExtractResult) :
  st_content s = Some w ->
  tldextract_extract E w = Ok domain_info ->
  contains_homoglyphs E w = true ->
  url_checks E s
  = later_checks E w (domain domain_info ++ lit "." ++ suffix domain_info)
      domain_info
      {| st_content := st_content s;
         st_risks := st_risks s ++ [homoglyph_note];
         st_level := py_max (st_level s) MEDIUM |}.
Proof.
  destruct s as [c rs lvl]. simpl. intros -> He Hh.
  unfold url_checks. unfold bind at 1, get_content. simpl.
  unfold bind at 1, lift. rewrite He.
  unfold bind at 1, check_homoglyphs. rewrite Hh. reflexivity.
Qed.

End Analysis.

(** The recommendation is read off the final [risk_level]; every level
    other than HIGH and MEDIUM gives ALLOW. *)
Lemma recommendation_by_level (E : Env) (content : str) :
  let r := analyze_content E content in
  recommendation r =
  if str_eqb (risk_level r) HIGH then lit "BLOCK"
  else if str_eqb (risk_level r) MEDIUM then lit "WARN"
  else lit "ALLOW".
Proof. reflexivity. Qed.

(** C8: on ["https://github.com/foo"], with the libraries answering as
    they do on this URL (scheme [https], domain [github] under suffix [com]
    without subdomain, a domain that IDNA decodes to itself, no pattern
    match, nothing to unquote), the result is LOW, ALLOW, without risks. *)
Theorem analyze_content_github (E : Env) :
  let content := lit "https://github.com/foo" in
  urlparse_scheme E content = Ok (lit "https") ->
  tldextract_extract E content
  = Ok {| subdomain := []; domain := lit "github"; suffix := lit "com" |} ->
  idna_decode E (lit "github.com") = Ok (lit "github.com") ->
  (forall pattern, In pattern suspicious_patterns ->
                   re_search E pattern content = false) ->
  unquote E content = content ->
  analyze_content E content
  = {| content := Some content;
       risk_level := LOW;
       risks := [];
       is_malicious := false;
       recommendation := lit "ALLOW" |}.
Proof.
  intros content Hs He Hi Hp Hu.
  set (domain_info :=
         {| subdomain := []; domain := lit "github"; suffix := lit "com" |})
    in *.
  assert (H1 : forall s, shortlink_stage E content s = (s, Ok tt)).
  { intros s. unfold shortlink_stage, is_shortlink. now rewrite He. }
  assert (H2 : forall s, check_homoglyphs E content s = (s, Ok tt)).
  { intros s. unfold check_homoglyphs.
    now replace (contains_homoglyphs E content) with false by reflexivity. }
  assert (H3 : forall s, check_domain (lit "github.com") s = (s, Ok tt))
    by reflexivity.
  assert (H4 : forall s, check_homograph E (lit "github.com") s = (s, Ok tt)).
  { intros s. unfold check_homograph, detect_homograph_attack.
    rewrite Hi.
    now replace (contains_homoglyphs E (lit "github.com")) with false
      by reflexivity. }
  assert (H5 : forall (patterns : list str) (s : state),
             (forall p, In p patterns -> In p suspicious_patterns) ->
             check_patterns E content patterns s = (s, Ok tt)).
  { intros patterns s. induction patterns as [|p rest IH]; intros Hin.
    - reflexivity.
    - cbn [check_patterns].
      rewrite (Hp p (Hin p (or_introl eq_refl))).
      apply IH. intros q Hq. apply Hin. now right. }
  assert (H6 : forall s, check_encoded E content s = (s, Ok tt)).
  { intros s. unfold check_encoded. rewrite Hu.
    now replace (str_eqb content content) with true
      by (symmetry; now apply str_eqb_eq). }
  assert (H7 : forall s, check_subdomains domain_info s = (s, Ok tt))
    by reflexivity.
  unfold analyze_content.
  rewrite (analyze_body_scheme E content (lit "https") Hs eq_refl).
  rewrite (bind_ok _ _ _ _ _ (H1 _)).
  unfold url_checks.
  rewrite (bind_ok _ _ _ _ _
             (eq_refl : get_content (initial_state content)
                        = (initial_state content, Ok (Some content)))).
  rewrite (bind_ok _ _ _ _ _ (f_equal (pair _) He : lift _ _ = _)).
  change (domain domain_info ++ lit "." ++ suffix domain_info)
    with (lit "github.com").
  rewrite (bind_ok _ _ _ _ _ (H2 _)), (bind_ok _ _ _ _ _ (H3 _)),
    (bind_ok _ _ _ _ _ (H4 _)), (bind_ok _ _ _ _ _ (H5 _ _ (fun p H => H))),
    (bind_ok _ _ _ _ _ (H6 _)), H7.
  reflexivity.
Qed.

Lemma analyze_content_github_witness :
  analyze_content (Reference.env Reference.offline)
    (lit "https://github.com/foo")
  = {| content := Some (lit "https://github.com/foo");
       risk_level := LOW;
       risks := [];
       is_malicious := false;
       recommendation := lit "ALLOW" |}.
Proof.
  apply (analyze_content_github (Reference.env Reference.offline)).
  - reflexivity.
  - reflexivity.
  - reflexivity.
  - intros pattern H. simpl in H.
    repeat (destruct H as [<- | H]; [reflexivity|]). contradiction.
  - reflexivity.
Defined.

(** After the shortlink stage the level is still LOW or already HIGH. *)
Lemma shortlink_stage_level (E : Env) (content : str) (s : state) :
  st_level s = LOW \/ st_level s = HIGH ->
  let s1 := fst (shortlink_stage E content s) in
  st_level s1 = LOW \/ st_level s1 = HIGH.
Proof.
  intros H.
  apply (keeps_shortlink_stage
           (fun l => l = LOW \/ l = HIGH) (fun _ => True)
           (fun _ _ _ => I) E content (or_intror eq_refl) s).
  split; [exact H | exact I].
Qed.

(** C10 (amended): the digit one is a confusable character, so
    [contains_homoglyphs] is true of every string that holds it.  When the
    content has a scheme, and the working content [w] of the homoglyph check
    (the content itself, or the final URL that replaced a resolved
    shortlink) holds a one and is accepted by tldextract, the result carries
    the homoglyph note; and its level is MEDIUM or HIGH unless
    [idna.decode] fails with something else than [IDNAError]. *)
Theorem digit_one_flagged (E : Env) (content scheme w : str) (s1 : state)
    (domain_info : ExtractResult) :
  urlparse_scheme E content = Ok scheme ->
  truthy scheme = true ->
  shortlink_stage E content (initial_state content) = (s1, Ok tt) ->
  st_content s1 = Some w ->
  In 49%N w ->
  tldextract_extract E w = Ok domain_info ->
  In 49%N confusables
  /\ contains_homoglyphs E w = true
  /\ In homoglyph_note (risks (analyze_content E content))
  /\ (idna_handled E (domain domain_info ++ lit "." ++ suffix domain_info) ->
      risk_level (analyze_content E content) = MEDIUM
      \/ risk_level (analyze_content E content) = HIGH).
Proof.
  intros Hs Ht Hstage Hw Hone He.
  pose proof (contains_homoglyphs_digit_one E w Hone) as Hh.
  split; [vm_compute; tauto|]. split; [exact Hh|].
  pose proof (shortlink_stage_level E content (initial_state content)
                (or_introl eq_refl)) as Hl.
  rewrite Hstage in Hl. simpl in Hl.
  unfold analyze_content.
  rewrite (analyze_body_scheme E content scheme Hs Ht).
  rewrite (bind_ok _ _ _ _ _ Hstage).
  rewrite (url_checks_flagged E s1 w domain_info Hw He Hh).
  set (domain_name := domain domain_info ++ lit "." ++ suffix domain_info).
  set (s2 := {| st_content := st_content s1;
                st_risks := st_risks s1 ++ [homoglyph_note];
                st_level := py_max (st_level s1) MEDIUM |}).
  assert (H2 : inv (fun l => l = MEDIUM \/ l = HIGH)
                   (fun rs => In homoglyph_note rs) s2).
  { split; simpl.
    - left. destruct Hl as [-> | ->]; reflexivity.
    - apply in_or_app. right. now left. }
  apply (keeps_later_checks
           (fun l => l = MEDIUM \/ l = HIGH) (fun rs => In homoglyph_note rs))
    with (E := E) (content := w) (domain_name := domain_name)
         (domain_info := domain_info) in H2.
  - destruct H2 as [Hlevel Hnote]. split.
    + apply (handle_risks _ _ Hnote).
    + intros Hi.
      destruct (returns_later_checks E w domain_name domain_info Hi s2)
        as [[] Hok].
      destruct (later_checks E w domain_name domain_info s2) as [s3 r].
      simpl in *. subst r. exact Hlevel.
  - intros l l' H. apply in_or_app. now left.
  - now right.
  - intros x [-> | ->]; left; reflexivity.
Qed.

Lemma digit_one_flagged_witness :
  let r := analyze_content (Reference.env Reference.offline)
             (lit "https://github.com/1") in
  In homoglyph_note (risks r) /\ (risk_level r = MEDIUM \/ risk_level r = HIGH).
Proof.
  intros r.
  pose proof (digit_one_flagged (Reference.env Reference.offline)
                (lit "https://github.com/1") (lit "https")
                (lit "https://github.com/1")
                (initial_state (lit "https://github.com/1"))
                {| subdomain := []; domain := lit "github";
                   suffix := lit "com" |}
                eq_refl eq_refl eq_refl eq_refl) as H.
  destruct H as [_ [_ [Hnote Hlevel]]].
  - vm_compute. tauto.
  - reflexivity.
  - split; [exact Hnote|]. apply Hlevel. vm_compute. exact I.
Defined.

(** C10, as stated, fails on a shortlink: ["https://bit.ly/1"] holds a one,
    but when it resolves to ["https://github.com/foo"] the checks run on
    the resolved URL, and the result is LOW without a homoglyph note. *)
Lemma digit_one_shortlink_unflagged :
  let content := lit "https://bit.ly/1" in
  let net := Reference.static
               [(content, (301%Z, lit "https://github.com/foo"))] in
  let r := analyze_content (Reference.env net) content in
  In 49%N content
  /\ urlparse_scheme (Reference.env net) content = Ok (lit "https")
  /\ risk_level r = LOW
  /\ recommendation r = lit "ALLOW"
  /\ risks r
     = [lit "URL redirect chain: https://bit.ly/1 -> https://github.com/foo"]
  /\ ~ In homoglyph_note (risks r).
Proof.
  vm_compute.
  repeat split; try tauto.
  intros [H | []]. discriminate H.
Qed.

(** ** Runs that show the defects *)

(** C1: on ["http://example.com/login%20x"] the pattern check sets the
    level to HIGH, and the encoded-characters check that follows lowers it
    to MEDIUM through [max], since ["HIGH" < "MEDIUM"] as strings; the
    result is MEDIUM and WARN although a HIGH check fired. *)
Theorem level_lowered_after_high :
  let E := Reference.env Reference.offline in
  let content := lit "http://example.com/login%20x" in
  let after_patterns :=
    fst ((check_homoglyphs E content ;;
          check_domain (lit "example.com") ;;
          check_homograph E (lit "example.com") ;;
          check_patterns E content suspicious_patterns)
           (initial_state content)) in
  let r := analyze_content E content in
  st_level after_patterns = HIGH
  /\ st_level (fst (check_encoded E content after_patterns)) = MEDIUM
  /\ risks r = [lit "Unknown domain: example.com";
                lit "Suspicious pattern found: (?i)login";
                lit "URL contains encoded characters"]
  /\ risk_level r = MEDIUM
  /\ is_malicious r = false
  /\ recommendation r = lit "WARN".
Proof. vm_compute. repeat split. Qed.

(** C2: on the shortlink ["https://bit.ly/abc"] with a network where the
    first request times out, the resolution error sets the level to HIGH,
    and the domain check that follows lowers it to MEDIUM; the result is
    MEDIUM and WARN, with the resolution error among the risks. *)
Theorem resolution_error_not_high :
  let E := Reference.env Reference.offline in
  let content := lit "https://bit.ly/abc" in
  let r := analyze_content E content in
  is_shortlink E content = true
  /\ safely_resolve_url E content 5
     = Ok (None, [content], Some (lit "Error resolving URL: Read timed out."))
  /\ st_level (fst (shortlink_stage E content (initial_state content))) = HIGH
  /\ risks r
     = [lit "Error resolving shortened URL: Error resolving URL: Read timed out.";
        lit "Unknown domain: bit.ly"]
  /\ risk_level r = MEDIUM
  /\ recommendation r = lit "WARN".
Proof. vm_compute. repeat split. Qed.

(** C3: on ["http://[::1"], which [urlparse] rejects, the handler sets the
    level to UNKNOWN and the recommendation is ALLOW. *)
Theorem unknown_recommends_allow :
  let E := Reference.env Reference.offline in
  let r := analyze_content E (lit "http://[::1") in
  urlparse_scheme E (lit "http://[::1")
  = Raise (OtherException (lit "Invalid IPv6 URL"))
  /\ risks r = [lit "Error analyzing URL: Invalid IPv6 URL"]
  /\ risk_level r = UNKNOWN
  /\ is_malicious r = false
  /\ recommendation r = lit "ALLOW".
Proof. vm_compute. repeat split. Qed.

(** C4: a relative [Location] on the second hop is joined to the URL the
    resolution started from, not to the URL that sent it: from
    ["https://bit.ly/a"], redirected to ["https://example.com/dir/page"],
    redirected to ["/next"], the chain ends in ["https://bit.ly/next"]. *)
Theorem relative_location_joined_to_start :
  let start := lit "https://bit.ly/a" in
  let second := lit "https://example.com/dir/page" in
  let net := Reference.static
               [(start, (301%Z, second)); (second, (302%Z, lit "/next"))] in
  safely_resolve_url (Reference.env net) start 5
  = Ok (Some (lit "https://bit.ly/next"),
        [start; second; lit "https://bit.ly/next"],
        None)
  /\ Reference.urljoin_model start (lit "/next") = lit "https://bit.ly/next"
  /\ Reference.urljoin_model second (lit "/next")
     = lit "https://example.com/next".
Proof. vm_compute. repeat split. Qed.

(** * Further properties of the code *)

(** ** Homoglyph detection *)

(** X1: [contains_homoglyphs] of a concatenation is the disjunction of the
    answers on the two parts: a confusable character is found wherever it
    stands, and nothing else is. *)
Theorem contains_homoglyphs_app (E : Env) (a b : str) :
  contains_homoglyphs E (a ++ b)
  = contains_homoglyphs E a || contains_homoglyphs E b.
Proof.
  apply eq_iff_eq_true.
  rewrite orb_true_iff, !contains_homoglyphs_iff. split.
  - intros [c [Hc Hin]]. apply in_app_or in Hin.
    destruct Hin as [Hin | Hin]; [left | right]; exists c; auto.
  - intros [[c [Hc Hin]] | [c [Hc Hin]]]; exists c; split; auto;
      apply in_or_app; auto.
Qed.

(** The only confusable character below 128 is the digit one. *)
Lemma confusables_ascii (c : char) :
  In c confusables -> (c < 128)%N -> c = 49%N.
Proof.
  intros H Hlt. unfold confusables, homoglyph_map in H. simpl in H.
  repeat (destruct H as [<- | H];
          [ first [reflexivity | vm_compute in Hlt; discriminate Hlt] |]).
  contradiction.
Qed.

(** X2: on a pure-ASCII string [contains_homoglyphs] answers true exactly
    when the string holds the digit one. *)
Theorem contains_homoglyphs_ascii (E : Env) (url : str) :
  (forall c, In c url -> (c < 128)%N) ->
  (contains_homoglyphs E url = true <-> In 49%N url).
Proof.
  intros Hascii. split.
  - intros H. apply contains_homoglyphs_iff in H.
    destruct H as [c [Hc Hin]].
    now rewrite <- (confusables_ascii c Hc (Hascii c Hin)).
  - apply contains_homoglyphs_digit_one.
Qed.

Lemma contains_homoglyphs_ascii_witness :
  contains_homoglyphs (Reference.env Reference.offline) (lit "web1.example")
  = true <-> In 49%N (lit "web1.example").
Proof.
  apply contains_homoglyphs_ascii.
  intros c H. simpl in H.
  repeat (destruct H as [<- | H]; [reflexivity|]). contradiction.
Defined.

(** ** Shortlinks *)

(** No shortener is a trusted domain. *)
Lemma shorteners_not_safe (d : str) :
  mem d url_shorteners = true -> mem d safe_domains = false.
Proof.
  unfold mem. intros H. apply existsb_exists in H.
  destruct H as [x [Hx Heq]]. apply str_eqb_eq in Heq. subst x.
  unfold url_shorteners in Hx. simpl in Hx.
  repeat (destruct Hx as [<- | Hx]; [reflexivity|]). contradiction.
Qed.

(** X3: when [is_shortlink] answers true, tldextract succeeded with a
    non-empty domain and suffix, the name [domain.suffix] that
    [analyze_content] builds is one of the shorteners, and that name is not
    in [safe_domains]. *)
Theorem is_shortlink_domain (E : Env) (url : str) :
  is_shortlink E url = true ->
  exists r,
    tldextract_extract E url = Ok r
    /\ truthy (domain r) = true /\ truthy (suffix r) = true
    /\ mem (domain r ++ lit "." ++ suffix r) url_shorteners = true
    /\ mem (domain r ++ lit "." ++ suffix r) safe_domains = false.
Proof.
  unfold is_shortlink. destruct (tldextract_extract E url) as [r|e];
    [|discriminate].
  unfold registered_domain.
  destruct (truthy (suffix r)) eqn:Hs; destruct (truthy (domain r)) eqn:Hd;
    simpl; try discriminate.
  intros H. exists r. repeat split; auto. now apply shorteners_not_safe.
Qed.

Lemma is_shortlink_domain_witness :
  exists r,
    tldextract_extract (Reference.env Reference.offline)
      (lit "https://bit.ly/abc") = Ok r
    /\ truthy (domain r) = true /\ truthy (suffix r) = true
    /\ mem (domain r ++ lit "." ++ suffix r) url_shorteners = true
    /\ mem (domain r ++ lit "." ++ suffix r) safe_domains = false.
Proof.
  apply is_shortlink_domain. reflexivity.
Defined.

(** ** The resolver *)

Section ResolverTrace.

Variable E : Env.
Variable url : str.

(** With an iteration left, the loop appends [current_url] and then the
    URLs that follow it. *)
Lemma resolve_loop_follows (fuel : nat) :
  forall (hop : nat) (current_url : str) (chain : list str),
  exists rest,
    fst (resolve_loop E (S fuel) hop url current_url chain)
    = chain ++ current_url :: rest
    /\ follows E url hop current_url rest.
Proof.
  induction fuel as [|fuel IH]; intros hop cur chain.
  - exists []. split; [|constructor]. simpl.
    destruct (requests_head E hop cur) as [resp|e]; [|reflexivity].
    destruct (negb (is_redirect (status_code resp))); [reflexivity|].
    destruct (next_url E url resp) as [[next|]|e]; try reflexivity.
    destruct (negb (truthy next)); reflexivity.
  - cbn [resolve_loop].
    destruct (requests_head E hop cur) as [resp|e] eqn:Hreq;
      [|exists []; split; [reflexivity | constructor]].
    destruct (is_redirect (status_code resp)) eqn:Hred; cbn [negb];
      [|exists []; split; [reflexivity | constructor]].
    destruct (next_url E url resp) as [[next|]|e] eqn:Hnext;
      try (exists []; split; [reflexivity | constructor]).
    destruct (truthy next) eqn:Htruthy; cbn [negb];
      [|exists []; split; [reflexivity | constructor]].
    destruct (IH (S hop) next (chain ++ [cur])) as [rest [Heq Hf]].
    exists (next :: rest). split.
    + cbn [resolve_loop] in Heq. rewrite Heq, <- app_assoc. reflexivity.
    + econstructor; eauto.
Qed.

(** The URL that the loop hands back.  Either the last request was
    answered without a redirect, and it is the URL of that request, the last
    of the chain; or the iterations ran out, and it is the target of the
    redirect that answered the last request (the given URL itself when no
    iteration was allowed).  The [hop]-th request is the one for the
    [hop]-th entry of the chain. *)
Lemma resolve_loop_final (fuel : nat) :
  forall (current_url : str) (chain out : list str) (f : str),
    resolve_loop E fuel (length chain) url current_url chain
    = (out, Ok (Some f)) ->
    truthy f = true ->
    (last out [] = f
     /\ exists head_response,
         requests_head E (length out - 1) f = Ok head_response
         /\ is_redirect (status_code head_response) = false)
    \/ (length out = length chain + fuel
        /\ ((fuel = 0 /\ f = current_url /\ out = chain)
            \/ exists head_response,
                requests_head E (length out - 1) (last out [])
                = Ok head_response
                /\ is_redirect (status_code head_response) = true
                /\ next_url E url head_response = Ok (Some f))).
Proof.
  induction fuel as [|fuel IH]; intros cur chain out f H Hf.
  - simpl in H. injection H as <- <-. right. split; [lia|]. now left.
  - cbn [resolve_loop] in H.
    assert (Hlen : length (chain ++ [cur]) = S (length chain))
      by (rewrite length_app; simpl; lia).
    destruct (requests_head E (length chain) cur) as [resp|e] eqn:Hreq;
      [|discriminate H].
    destruct (is_redirect (status_code resp)) eqn:Hred; cbn [negb] in H.
    + destruct (next_url E url resp) as [[next|]|e] eqn:Hnext;
        try discriminate H.
      destruct (truthy next) eqn:Hn; cbn [negb] in H;
        [|injection H as <- <-; congruence].
      rewrite <- Hlen in H. apply IH in H; [|exact Hf].
      destruct H as [H | [Hl [[-> [-> ->]] | H]]]; [now left | |].
      * right. split; [lia|]. right. exists resp.
        rewrite Hlen, last_last. simpl. rewrite Nat.sub_0_r.
        now rewrite Hreq, Hred, Hnext.
      * right. split; [lia|]. now right.
    + injection H as <- <-. left. split; [apply last_last|].
      exists resp. rewrite Hlen. simpl. rewrite Nat.sub_0_r.
      now rewrite Hreq, Hred.
Qed.


End ResolverTrace.

(** X4: with at least one hop allowed, the chain that redirect resolution
    returns starts with the URL it was given, and every later entry is the
    non-empty redirect target that the request to the entry before it
    answered (requests are sent in chain order, one per entry). *)
Theorem safely_resolve_url_trace (E : Env) (url : str) (max_redirects : nat) :
  match safely_resolve_url E url (S max_redirects) with
  | Ok (_, redirect_chain, _) =>
      exists rest,
        redirect_chain = url :: rest /\ follows E url 0 url rest
  | Raise _ => True
  end.
Proof.
  unfold safely_resolve_url.
  destruct (resolve_loop_follows E url max_redirects 0 url [])
    as [rest [Heq Hf]].
  destruct (resolve_loop E (S max_redirects) 0 url url []) as [chain [cur|e]];
    simpl in Heq; subst chain.
  - now exists rest.
  - destruct e; simpl; auto. now exists rest.
Qed.

(** X5: when resolution ends without error on a non-empty final URL,
    either that URL is the last entry of the chain and the request to it was
    answered without a redirect; or all [max_redirects] requests were
    answered by redirects: then the chain has [max_redirects] entries and
    the final URL is the target of the redirect that answered the last
    request (the given URL itself when [max_redirects] is 0), handed back
    without being requested. *)
Theorem safely_resolve_url_final (E : Env) (url : str) (max_redirects : nat)
    (final_url : str) (redirect_chain : list str) :
  safely_resolve_url E url max_redirects
  = Ok (Some final_url, redirect_chain, None) ->
  truthy final_url = true ->
  (last redirect_chain [] = final_url
   /\ exists head_response,
       requests_head E (length redirect_chain - 1) final_url
       = Ok head_response
       /\ is_redirect (status_code head_response) = false)
  \/ (length redirect_chain = max_redirects
      /\ ((max_redirects = 0 /\ final_url = url)
          \/ exists head_response,
              requests_head E (max_redirects - 1) (last redirect_chain [])
              = Ok head_response
              /\ is_redirect (status_code head_response) = true
              /\ next_url E url head_response = Ok (Some final_url))).
Proof.
  unfold safely_resolve_url. intros H Hf.
  destruct (resolve_loop E max_redirects 0 url url []) as [chain [cur|e]]
    eqn:Hloop.
  - injection H as -> ->.
    destruct (resolve_loop_final E url max_redirects url [] _ _ Hloop Hf)
      as [Hlast | [Hlen [[H0 [Hu _]] | Hnext]]].
    + now left.
    + right. simpl in Hlen. split; [exact Hlen|]. now left.
    + right. simpl in Hlen. split; [exact Hlen|]. right.
      now rewrite <- Hlen.
  - destruct e; discriminate H.
Qed.

Lemma safely_resolve_url_final_witness :
  let a := lit "https://bit.ly/a" in
  let b := lit "https://bit.ly/b" in
  let c := lit "https://github.com/foo" in
  let E := Reference.env
             (Reference.static [(a, (301%Z, b)); (b, (302%Z, c))]) in
  (last [a; b] [] = c
   /\ exists head_response,
       requests_head E (length [a; b] - 1) c = Ok head_response
       /\ is_redirect (status_code head_response) = false)
  \/ (length [a; b] = 2
      /\ ((2 = 0 /\ c = a)
          \/ exists head_response,
              requests_head E (2 - 1) (last [a; b] []) = Ok head_response
              /\ is_redirect (status_code head_response) = true
              /\ next_url E a head_response = Ok (Some c))).
Proof.
  intros a b c E.
  apply (safely_resolve_url_final E a 2 c [a; b]); reflexivity.
Defined.



(** ** Short chains *)

Lemma suffixes_length (E : Env) (chain : list str) :
  forall domains, suffixes E chain = Ok domains ->
                  length domains = length chain.
Proof.
  induction chain as [|u chain IH]; intros domains H; simpl in H.
  - injection H as <-. reflexivity.
  - destruct (tldextract_extract E u) as [r|e]; [|discriminate H].
    destruct (suffixes E chain) as [l|e]; [|discriminate H].
    injection H as <-. simpl. now rewrite (IH l eq_refl).
Qed.

Lemma nodup_shorter (l : list str) :
  length (nodup str_eq_dec l) <= length l.
Proof.
  induction l as [|x l IH]; simpl; [lia|].
  destruct (in_dec str_eq_dec x l); simpl; lia.
Qed.

(** X7: a chain of at most two entries can only draw the mixed-protocol
    risk, and a chain of a single entry (a shortlink that answered without
    redirecting) draws none. *)
Theorem analyze_redirect_chain_short (E : Env) (chain domains : list str) :
  suffixes E chain = Ok domains ->
  length chain <= 2 ->
  (analyze_redirect_chain E chain = Ok []
   \/ analyze_redirect_chain E chain = Ok [mixed_risk])
  /\ (length chain <= 1 -> analyze_redirect_chain E chain = Ok []).
Proof.
  intros Hs Hlen. rewrite (analyze_redirect_chain_eq E chain domains Hs).
  pose proof (nodup_shorter domains) as Hn.
  rewrite (suffixes_length E chain domains Hs) in Hn.
  destruct (Nat.ltb_spec 3 (length chain)); [lia|].
  destruct (Nat.ltb_spec 2 (length (nodup str_eq_dec domains))); [lia|].
  split.
  - destruct (existsb _ chain && existsb _ chain); simpl; auto.
  - intros H1. destruct chain as [|u [|v chain]]; simpl in H1; try lia;
      [reflexivity|].
    cbn [existsb]. rewrite !orb_false_r.
    destruct (startswith u (lit "https://")) eqn:Hu.
    + now rewrite (https_not_http u Hu).
    + now rewrite andb_false_r.
Qed.

Lemma analyze_redirect_chain_short_witness :
  let chain := [lit "https://bit.ly/abc"] in
  (analyze_redirect_chain (Reference.env Reference.offline) chain = Ok []
   \/ analyze_redirect_chain (Reference.env Reference.offline) chain
      = Ok [mixed_risk])
  /\ (length chain <= 1 ->
      analyze_redirect_chain (Reference.env Reference.offline) chain = Ok []).
Proof.
  intros chain.
  apply (analyze_redirect_chain_short (Reference.env Reference.offline)
           chain [lit "ly"]); [reflexivity | simpl; lia].
Defined.

(** ** The verdict agrees with the risks *)

Section Graded.

Variable E : Env.

Lemma is_chain_note_prefix (x : str) :
  is_chain_note (lit "URL redirect chain: " ++ x) = true.
Proof.
  unfold is_chain_note. generalize (lit "URL redirect chain: ").
  intros p. induction p as [|c p IH]; simpl; [reflexivity|].
  now rewrite N.eqb_refl, IH.
Qed.

Lemma graded_levels (s : state) :
  graded s ->
  st_level s = LOW \/ st_level s = MEDIUM \/ st_level s = HIGH.
Proof. unfold graded. tauto. Qed.

Lemma keeps_graded_flag_high (r : str) :
  keeps graded (append_risk r ;; set_level HIGH).
Proof.
  intros s _. right. simpl. split; [now right|].
  intros K. apply app_eq_nil in K. destruct K. discriminate.
Qed.

Lemma keeps_graded_flag_medium (r : str) :
  keeps graded (append_risk r ;; escalate MEDIUM).
Proof.
  intros s H. right. simpl. split.
  - left. destruct (graded_levels s H) as [-> | [-> | ->]]; reflexivity.
  - intros K. apply app_eq_nil in K. destruct K. discriminate.
Qed.

Lemma keeps_graded_resolved_branch (final_url : option str)
    (redirects : list str) :
  keeps graded (resolved_branch E final_url redirects).
Proof.
  intros s H. unfold resolved_branch. unfold bind at 1, lift.
  destruct (analyze_redirect_chain E redirects) as [rr|e]; [|exact H].
  destruct rr as [|x rr].
  - change (graded
              {| st_content := final_url;
                 st_risks := (st_risks s ++ [])
                             ++ [lit "URL redirect chain: "
                                   ++ join (lit " -> ") redirects];
                 st_level := st_level s |}).
    unfold graded in *. cbn [st_risks st_level].
    destruct H as [[Hl Hr] | [Hl Hr]]; [left | right]; split; auto.
    + rewrite app_nil_r, forallb_app, Hr. cbn [forallb].
      now rewrite is_chain_note_prefix.
    + intros K. apply app_eq_nil in K. destruct K. discriminate.
  - right. simpl. split; [now right|].
    intros K. apply app_eq_nil in K. destruct K. discriminate.
Qed.

Lemma keeps_graded_shortlink_stage (content : str) :
  keeps graded (shortlink_stage E content).
Proof.
  unfold shortlink_stage. apply keeps_when.
  apply keeps_bind; [apply keeps_lift|].
  intros [[final_url redirects] error].
  destruct error as [err|]; [|apply keeps_graded_resolved_branch].
  destruct (truthy err);
    [apply keeps_graded_flag_high | apply keeps_graded_resolved_branch].
Qed.

Lemma keeps_graded_check_patterns (content : str) (patterns : list str) :
  keeps graded (check_patterns E content patterns).
Proof.
  induction patterns as [|p rest IH]; simpl.
  - apply keeps_ret.
  - apply keeps_bind; [|intros _; exact IH].
    apply keeps_when, keeps_graded_flag_high.
Qed.

Lemma keeps_graded_url_checks : keeps graded (url_checks E).
Proof.
  unfold url_checks. apply keeps_bind; [intros s H; exact H|].
  intros [content|]; [|apply keeps_lift].
  apply keeps_bind; [apply keeps_lift|]. intros domain_info.
  apply keeps_bind;
    [apply keeps_when, keeps_graded_flag_medium|]. intros _.
  apply keeps_bind;
    [apply keeps_when, keeps_graded_flag_medium|]. intros _.
  apply keeps_bind.
  { unfold check_homograph. apply keeps_bind; [apply keeps_lift|].
    intros b. apply keeps_when, keeps_graded_flag_high. }
  intros _.
  apply keeps_bind; [apply keeps_graded_check_patterns|]. intros _.
  apply keeps_bind.
  { unfold check_encoded. apply keeps_when, keeps_graded_flag_medium. }
  intros _. unfold check_subdomains.
  apply keeps_when, keeps_graded_flag_high.
Qed.

(** Whether the body of the [try] returns or raises, the state it leaves
    is graded. *)
Lemma analyze_body_graded (content : str) :
  graded (fst (analyze_body E content (initial_state content))).
Proof.
  assert (H : keeps graded (analyze_body E content)).
  { unfold analyze_body. apply keeps_bind; [apply keeps_lift|].
    intros scheme. apply keeps_when.
    apply keeps_bind; [apply keeps_graded_shortlink_stage|].
    intros _. apply keeps_graded_url_checks. }
  apply H. left. split; reflexivity.
Qed.

(** The final state is that of a body that returned, in a graded state, or
    the UNKNOWN state of the handler, with the error recorded. *)
Lemma handle_cases (content : str) :
  let final := handle (analyze_body E content (initial_state content)) in
  (graded final
   /\ exists s, analyze_body E content (initial_state content) = (s, Ok tt))
  \/ (st_level final = UNKNOWN /\ st_risks final <> []
      /\ exists s e,
          analyze_body E content (initial_state content) = (s, Raise e)).
Proof.
  pose proof (analyze_body_graded content) as H.
  destruct (analyze_body E content (initial_state content)) as [s [[]|e]];
    simpl in *.
  - left. split; [exact H | now exists s].
  - right. split; [reflexivity|]. split; [|now exists s, e].
    intros K. apply app_eq_nil in K. destruct K. discriminate.
Qed.

End Graded.

(** X8: content in which [urlparse] finds no scheme is not checked at all:
    whatever it holds, the result is LOW and ALLOW, without risks, and the
    content is returned as it came. *)
Theorem analyze_content_no_scheme (E : Env) (content scheme : str) :
  urlparse_scheme E content = Ok scheme ->
  truthy scheme = false ->
  analyze_content E content
  = {| content := Some content;
       risk_level := LOW;
       risks := [];
       is_malicious := false;
       recommendation := lit "ALLOW" |}.
Proof.
  intros Hs Ht. unfold analyze_content, analyze_body.
  unfold bind, lift. now rewrite Hs, Ht.
Qed.

Lemma analyze_content_no_scheme_witness :
  analyze_content (Reference.env Reference.offline)
    (lit "github.com/login.exe")
  = {| content := Some (lit "github.com/login.exe");
       risk_level := LOW;
       risks := [];
       is_malicious := false;
       recommendation := lit "ALLOW" |}.
Proof.
  apply (analyze_content_no_scheme (Reference.env Reference.offline)
           (lit "github.com/login.exe") []); reflexivity.
Defined.

(** X9: the fields of a result agree.  [risk_level] is LOW, MEDIUM, HIGH
    or UNKNOWN; [is_malicious] is true exactly at HIGH, which is exactly
    when the recommendation is BLOCK; the recommendation is WARN exactly at
    MEDIUM. *)
Theorem analyze_content_fields (E : Env) (content : str) :
  let r := analyze_content E content in
  known_level (risk_level r)
  /\ (is_malicious r = true <-> risk_level r = HIGH)
  /\ (recommendation r = lit "BLOCK" <-> risk_level r = HIGH)
  /\ (recommendation r = lit "WARN" <-> risk_level r = MEDIUM).
Proof.
  intros r.
  assert (Hk : known_level (risk_level r)).
  { unfold r, analyze_content, known_level. simpl.
    destruct (handle_cases E content) as [[Hg _] | [Hu _]].
    - destruct (graded_levels _ Hg) as [H | [H | H]]; auto.
    - auto. }
  split; [exact Hk|].
  unfold r, analyze_content in *. simpl in *.
  destruct Hk as [H | [H | [H | H]]]; rewrite H;
    repeat split; intros K; try reflexivity; try discriminate K.
Qed.

(** X10: [risk_level] is UNKNOWN exactly when an exception left the body
    of the [try]; the levels that the checks assign never produce it. *)
Theorem analyze_content_unknown (E : Env) (content : str) :
  risk_level (analyze_content E content) = UNKNOWN
  <-> exists s e,
      analyze_body E content (initial_state content) = (s, Raise e).
Proof.
  unfold analyze_content. simpl.
  destruct (handle_cases E content) as [[Hg [s Hs]] | [Hu [_ Hr]]].
  - split.
    + intros H. destruct (graded_levels _ Hg) as [K | [K | K]];
        rewrite K in H; discriminate H.
    + intros [s' [e He]]. rewrite Hs in He. discriminate He.
  - split; auto.
Qed.

(** X11: a result without risks is LOW: every level above LOW, and every
    UNKNOWN, comes with at least one risk entry that explains it. *)
Theorem analyze_content_no_risks (E : Env) (content : str) :
  risks (analyze_content E content) = [] ->
  risk_level (analyze_content E content) = LOW
  /\ is_malicious (analyze_content E content) = false.
Proof.
  unfold analyze_content. simpl. intros H.
  destruct (handle_cases E content) as [[Hg _] | [_ [Hne _]]];
    [|contradiction].
  destruct Hg as [[Hl _] | [_ Hne]]; [|contradiction].
  rewrite Hl. split; reflexivity.
Qed.

Lemma analyze_content_no_risks_witness :
  let r := analyze_content (Reference.env Reference.offline)
             (lit "https://github.com/foo") in
  risk_level r = LOW /\ is_malicious r = false.
Proof.
  apply (analyze_content_no_risks (Reference.env Reference.offline)
           (lit "https://github.com/foo")). reflexivity.
Defined.

(** X12: a LOW result holds no risk entry other than the informational
    ["URL redirect chain: ..."] notes: no check that fired is left
    unreflected in the level. *)
Theorem analyze_content_low (E : Env) (content : str) :
  risk_level (analyze_content E content) = LOW ->
  forallb is_chain_note (risks (analyze_content E content)) = true.
Proof.
  unfold analyze_content. simpl. intros H.
  destruct (handle_cases E content) as [[Hg _] | [Hu _]].
  - destruct Hg as [[_ Hr] | [[Hl | Hl] _]]; [exact Hr | |];
      rewrite Hl in H; discriminate H.
  - rewrite Hu in H. discriminate H.
Qed.

Lemma analyze_content_low_witness :
  let content := lit "https://bit.ly/1" in
  let net := Reference.static
               [(content, (301%Z, lit "https://github.com/foo"))] in
  let r := analyze_content (Reference.env net) content in
  risks r <> [] /\ forallb is_chain_note (risks r) = true.
Proof.
  intros content net r. split; [discriminate|].
  apply (analyze_content_low (Reference.env net) content). reflexivity.
Defined.

(** ** What the checks record *)

Section Runs.

Variable E : Env.

Lemma flag_high_run (fired : bool) (risk : str) (s : state) :
  when fired (append_risk risk ;; set_level HIGH) s
  = (note_if fired risk (fun _ => HIGH) s, Ok tt).
Proof.
  destruct s as [c rs l]. destruct fired; unfold note_if; simpl;
    [reflexivity | now rewrite app_nil_r].
Qed.

Lemma flag_medium_run (fired : bool) (risk : str) (s : state) :
  when fired (append_risk risk ;; escalate MEDIUM) s
  = (note_if fired risk (fun l => py_max l MEDIUM) s, Ok tt).
Proof.
  destruct s as [c rs l]. destruct fired; unfold note_if; simpl;
    [reflexivity | now rewrite app_nil_r].
Qed.

(** The pattern loop appends one entry for each pattern that matches, in
    the order of the list, and sets HIGH when there is one. *)
Lemma check_patterns_run (content : str) (patterns : list str) :
  forall s : state,
    check_patterns E content patterns s
    = ({| st_content := st_content s;
          st_risks := st_risks s ++ pattern_risks E content patterns;
          st_level :=
            if existsb (fun pattern => re_search E pattern content) patterns
            then HIGH else st_level s |}, Ok tt).
Proof.
  induction patterns as [|p rest IH]; intros s.
  - destruct s as [c rs l]. simpl. now rewrite app_nil_r.
  - cbn [check_patterns].
    rewrite (bind_ok _ _ _ _ _ (flag_high_run _ _ s)), IH.
    unfold note_if, pattern_risks. cbn [st_content st_risks st_level].
    cbn [filter existsb].
    destruct (re_search E p content); cbn [map orb].
    + rewrite <- app_assoc.
      now destruct (existsb _ rest).
    + now rewrite app_nil_r.
Qed.

(** The checks on a working content that tldextract accepts and on whose
    domain [detect_homograph_attack] answers: they all run, and leave the
    content as it is. *)
Lemma url_checks_run (s : state) (w : str) (domain_info : ExtractResult)
    (attack : bool) :
  st_content s = Some w ->
  tldextract_extract E w = Ok domain_info ->
  detect_homograph_attack E
    (domain domain_info ++ lit "." ++ suffix domain_info) = Ok attack ->
  url_checks E s
  = ({| st_content := Some w;
        st_risks := st_risks s ++ check_risks E w domain_info attack;
        st_level := check_level E w domain_info attack (st_level s) |},
     Ok tt).
Proof.
  destruct s as [c rs l]. cbn [st_content st_risks st_level].
  intros -> He Ha. unfold url_checks.
  set (s := {| st_content := Some w; st_risks := rs; st_level := l |}).
  rewrite (bind_ok _ _ _ _ _
             (eq_refl : get_content s = (s, Ok (Some w)))).
  rewrite (bind_ok _ _ _ _ _ (f_equal (pair _) He : lift _ _ = _)).
  assert (Hh : forall s' : state,
             check_homograph E
               (domain domain_info ++ lit "." ++ suffix domain_info) s'
             = (note_if attack
                  (lit "Suspicious homograph attack detected in domain: "
                   ++ domain domain_info ++ lit "." ++ suffix domain_info)
                  (fun _ => HIGH) s', Ok tt)).
  { intros s'. unfold check_homograph.
    rewrite (bind_ok _ _ _ _ _ (f_equal (pair _) Ha : lift _ _ = _)).
    apply flag_high_run. }
  unfold check_homoglyphs, check_domain, check_encoded, check_subdomains.
  rewrite (bind_ok _ _ _ _ _ (flag_medium_run _ _ _)).
  rewrite (bind_ok _ _ _ _ _ (flag_medium_run _ _ _)).
  rewrite (bind_ok _ _ _ _ _ (Hh _)).
  rewrite (bind_ok _ _ _ _ _ (check_patterns_run _ _ _)).
  rewrite (bind_ok _ _ _ _ _ (flag_medium_run _ _ _)).
  rewrite flag_high_run.
  unfold note_if, check_risks, check_level.
  cbn [st_content st_risks st_level]. cbv zeta.
  rewrite !if_negb. f_equal. f_equal.
  now rewrite <- !app_assoc.
Qed.

End Runs.

(** ** Whole analyses *)

Section Scenarios.

Variable E : Env.

Lemma analyze_content_stages (content scheme : str) :
  urlparse_scheme E content = Ok scheme -> truthy scheme = true ->
  analyze_content E content
  = verdict (handle ((shortlink_stage E content ;; url_checks E)
                       (initial_state content))).
Proof.
  intros Hs Ht. unfold analyze_content.
  now rewrite (analyze_body_scheme E content scheme Hs Ht).
Qed.

Lemma shortlink_stage_skip (content : str) (s : state) :
  is_shortlink E content = false ->
  shortlink_stage E content s = (s, Ok tt).
Proof. intros H. unfold shortlink_stage. now rewrite H. Qed.




Lemma detect_homograph_attack_handled (domain_name : str) :
  idna_handled E domain_name ->
  exists attack, detect_homograph_attack E domain_name = Ok attack.
Proof.
  unfold idna_handled, detect_homograph_attack.
  destruct (idna_decode E domain_name) as [d|[m|m|m]]; try contradiction;
    intros _; eexists; reflexivity.
Qed.

End Scenarios.

(** X13: for a URL with a scheme that is not a shortlink, when tldextract
    accepts it and the homograph test answers, the result keeps the
    content, and its risks are the entries of the checks that fired, in the
    order of the checks: homoglyphs, unknown domain, homograph, one entry
    for each matching pattern in list order, encoded characters,
    subdomains. *)
Theorem analyze_content_ordinary (E : Env) (url scheme : str)
    (domain_info : ExtractResult) (attack : bool) :
  urlparse_scheme E url = Ok scheme ->
  truthy scheme = true ->
  is_shortlink E url = false ->
  tldextract_extract E url = Ok domain_info ->
  detect_homograph_attack E
    (domain domain_info ++ lit "." ++ suffix domain_info) = Ok attack ->
  content (analyze_content E url) = Some url
  /\ risks (analyze_content E url)
     = check_risks E url domain_info attack.
Proof.
  intros Hs Ht Hsl He Ha.
  rewrite (analyze_content_stages E url scheme Hs Ht).
  rewrite (bind_ok _ _ _ _ _ (shortlink_stage_skip E url _ Hsl)).
  rewrite (url_checks_run E (initial_state url) url domain_info attack
             eq_refl He Ha).
  split; reflexivity.
Qed.

Lemma analyze_content_ordinary_witness :
  let E := Reference.env Reference.offline in
  let url := lit "http://example.com/login%20x" in
  content (analyze_content E url) = Some url
  /\ risks (analyze_content E url)
     = [lit "Unknown domain: example.com";
        lit "Suspicious pattern found: (?i)login";
        lit "URL contains encoded characters"].
Proof.
  intros E url.
  apply (analyze_content_ordinary E url (lit "http")
           {| subdomain := []; domain := lit "example"; suffix := lit "com" |}
           false); reflexivity.
Defined.







(** X17: the subdomain check is the last one, so nothing follows it: when
    the working content has more than three subdomain labels (and the
    checks before it raise nothing), the result is HIGH, malicious, BLOCK,
    and its last risk is the subdomain entry. *)
Theorem analyze_content_subdomains (E : Env) (url scheme w : str)
    (s1 : state) (domain_info : ExtractResult) :
  urlparse_scheme E url = Ok scheme ->
  truthy scheme = true ->
  shortlink_stage E url (initial_state url) = (s1, Ok tt) ->
  st_content s1 = Some w ->
  tldextract_extract E w = Ok domain_info ->
  idna_handled E (domain domain_info ++ lit "." ++ suffix domain_info) ->
  3 < length (split (N_of_ascii ".") (subdomain domain_info)) ->
  risk_level (analyze_content E url) = HIGH
  /\ is_malicious (analyze_content E url) = true
  /\ recommendation (analyze_content E url) = lit "BLOCK"
  /\ last (risks (analyze_content E url)) []
     = lit "Suspicious number of subdomains".
Proof.
  intros Hs Ht Hst Hw He Hi Hdeep.
  destruct (detect_homograph_attack_handled E _ Hi) as [attack Ha].
  apply Nat.ltb_lt in Hdeep.
  rewrite (analyze_content_stages E url scheme Hs Ht).
  rewrite (bind_ok _ _ _ _ _ Hst).
  rewrite (url_checks_run E s1 w domain_info attack Hw He Ha).
  cbn [handle verdict content risks risk_level is_malicious recommendation
       st_content st_risks st_level].
  unfold check_level, check_risks. cbv zeta. rewrite Hdeep.
  repeat split.
  rewrite !app_assoc. apply last_last.
Qed.

Lemma analyze_content_subdomains_witness :
  let url := lit "https://a.b.c.d.github.com/" in
  let r := analyze_content (Reference.env Reference.offline) url in
  risk_level r = HIGH
  /\ is_malicious r = true
  /\ recommendation r = lit "BLOCK"
  /\ last (risks r) [] = lit "Suspicious number of subdomains".
Proof.
  intros url r.
  apply (analyze_content_subdomains (Reference.env Reference.offline) url
           (lit "https") url (initial_state url)
           {| subdomain := lit "a.b.c.d"; domain := lit "github";
              suffix := lit "com" |});
    try reflexivity.
  vm_compute. lia.
Defined.

(** ** Reading the QR code *)

(** What [decode_qr] returns is a text without error, or no text with a
    non-empty error. *)
Lemma decode_qr_cases (V : Vision) (image_path : str) :
  (exists text, decode_qr V image_path = (Some text, None))
  \/ (exists err,
         decode_qr V image_path = (None, Some err)
         /\ truthy err = true
         /\ (err = lit "No QR code found in image"
             \/ startswith err (lit "Error decoding QR code: ") = true)).
Proof.
  unfold decode_qr, decode_failure.
  destruct (cv2_imread V image_path) as [img|e].
  - destruct (pyzbar_decode V img) as [[|first rest]|e].
    + right. eexists. split; [reflexivity|]. split; [reflexivity | now left].
    + destruct (utf8_decode V first) as [text|e].
      * left. now exists text.
      * right. eexists. split; [reflexivity|].
        split; [reflexivity | right; reflexivity].
    + right. eexists. split; [reflexivity|].
      split; [reflexivity | right; reflexivity].
  - right. eexists. split; [reflexivity|].
    split; [reflexivity | right; reflexivity].
Qed.

(** X18: [decode_qr] raises nothing and returns exactly one of its two
    components: a decoded text with no error, or no text with an error that
    is never empty, either ["No QR code found in image"] or a message
    behind ["Error decoding QR code: "] (an unreadable image, a failure of
    the decoder, a payload that is not UTF-8). *)
Theorem decode_qr_outcome (V : Vision) (image_path : str) :
  match decode_qr V image_path with
  | (Some text, None) => True
  | (None, Some err) =>
      truthy err = true
      /\ (err = lit "No QR code found in image"
          \/ startswith err (lit "Error decoding QR code: ") = true)
  | _ => False
  end.
Proof.
  destruct (decode_qr_cases V image_path) as [[text H] | [err [H Herr]]];
    rewrite H; [exact I | exact Herr].
Qed.

(** X19: [check_qr_safety] returns the error dictionary, with the error
    of [decode_qr] unchanged, exactly when decoding gave no text, and
    otherwise the analysis of the decoded text; it never analyses a missing
    content. *)
Theorem check_qr_safety_outcome (V : Vision) (E : Env) (image_path : str) :
  match decode_qr V image_path with
  | (Some text, _) =>
      check_qr_safety V E image_path = QRAnalysis (analyze_content E text)
  | (None, Some err) => check_qr_safety V E image_path = QRError err
  | (None, None) => False
  end.
Proof.
  unfold check_qr_safety.
  destruct (decode_qr_cases V image_path) as [[text H] | [err [H [Ht _]]]];
    rewrite H; [reflexivity | now rewrite Ht].
Qed.

(** ** Homograph test and classifier failures *)

(** X20: on a pure-ASCII domain that [idna.decode] returns unchanged, or
    rejects with [IDNAError] so that the raw domain is kept,
    [detect_homograph_attack] returns, and reports an attack exactly when
    the domain holds the digit one. *)
Theorem detect_homograph_attack_ascii (E : Env) (domain_name : str) :
  (forall c, In c domain_name -> (c < 128)%N) ->
  idna_decode E domain_name = Ok domain_name
  \/ (exists msg, idna_decode E domain_name = Raise (IDNAError msg)) ->
  exists attack,
    detect_homograph_attack E domain_name = Ok attack
    /\ (attack = true <-> In 49%N domain_name).
Proof.
  intros Hascii Hdec.
  exists (contains_homoglyphs E domain_name). split.
  - unfold detect_homograph_attack.
    destruct Hdec as [-> | [msg ->]]; reflexivity.
  - split.
    + intros H. apply contains_homoglyphs_iff in H.
      destruct H as [c [Hc Hin]].
      now rewrite <- (confusables_ascii c Hc (Hascii c Hin)).
    + apply contains_homoglyphs_digit_one.
Qed.

Lemma detect_homograph_attack_ascii_witness :
  exists attack,
    detect_homograph_attack (Reference.env Reference.offline)
      (lit "1password.com") = Ok attack
    /\ (attack = true <-> In 49%N (lit "1password.com")).
Proof.
  apply detect_homograph_attack_ascii.
  - intros c H. simpl in H.
    repeat (destruct H as [<- | H]; [reflexivity|]). contradiction.
  - left. reflexivity.
Defined.

(** X21: a failure of tldextract on the content is swallowed by
    [is_shortlink], which answers false, but the same call fails again on
    line 139, where only the handler of [analyze_content] catches it: the
    result is UNKNOWN, with the content unchanged and the error as its only
    risk. *)
Theorem analyze_content_extract_fails (E : Env) (url scheme : str) (e : exn) :
  urlparse_scheme E url = Ok scheme ->
  truthy scheme = true ->
  tldextract_extract E url = Raise e ->
  is_shortlink E url = false
  /\ content (analyze_content E url) = Some url
  /\ risk_level (analyze_content E url) = UNKNOWN
  /\ risks (analyze_content E url)
     = [lit "Error analyzing URL: " ++ exn_str e].
Proof.
  intros Hs Ht He.
  assert (Hsl : is_shortlink E url = false)
    by (unfold is_shortlink; now rewrite He).
  split; [exact Hsl|].
  rewrite (analyze_content_stages E url scheme Hs Ht).
  rewrite (bind_ok _ _ _ _ _ (shortlink_stage_skip E url _ Hsl)).
  unfold url_checks, bind, get_content, lift. simpl. rewrite He.
  repeat split.
Qed.

Lemma analyze_content_extract_fails_witness :
  let url := lit "https://github.com/foo" in
  let E0 := Reference.env Reference.offline in
  let E := {| urlparse_scheme := urlparse_scheme E0;
              tldextract_extract :=
                fun _ => Raise (OtherException (lit "suffix list unavailable"));
              extract_none_msg := extract_none_msg E0;
              requests_head := requests_head E0;
              urljoin := urljoin E0;
              unidecode := unidecode E0;
              idna_decode := idna_decode E0;
              re_search := re_search E0;
              unquote := unquote E0;
              set_iter := set_iter E0 |} in
  is_shortlink E url = false
  /\ content (analyze_content E url) = Some url
  /\ risk_level (analyze_content E url) = UNKNOWN
  /\ risks (analyze_content E url)
     = [lit "Error analyzing URL: suffix list unavailable"].
Proof.
  intros url E0 E.
  apply (analyze_content_extract_fails E url (lit "https")
           (OtherException (lit "suffix list unavailable")));
    reflexivity.
Defined.

(** ** Failures that reach the handler *)

Section Escapes.

Variable E : Env.








End Escapes.



